(** * Center sampling of the Kernel Mixture Network ([src/kmn.py])

    A shallow embedding of the center-sampling functions of [kmn.py]
    ([random_sampler] ... [sample_center_points]) and the properties the
    specification states about them.

    Python objects are modelled as follows.
    - A scalar target value is an integer.  The functions of the module only
      copy, compare and reorder the elements of their input, and finite
      floating-point values are ordered like integers; arithmetic on the
      elements (centroids, means) happens inside the libraries, which are
      parameters here.  NaN and the infinities are left out.
    - A one-dimensional [numpy] array is a view (buffer, start, size) into a
      store of buffers, so that copies ([np.sort], [np.append], fancy
      indexing) and views ([ravel], slices) are told apart.
    - A function of the module is a computation over the interpreter state
      (the store and the warnings emitted so far) that returns a value or
      raises an exception.
    - The global names the module can resolve are an explicit list: a name
      that is neither imported nor defined raises [NameError] when the
      statement that mentions it runs. *)

From Stdlib Require Import ZArith List String Bool Lia PeanoNat.
From Stdlib Require Import Permutation Sorted Orders Mergesort.
Import ListNotations.

Local Open Scope string_scope.
Local Open Scope list_scope.
Local Open Scope Z_scope.

(** ** Values, exceptions, interpreter state *)

Definition scalar := Z.

Inductive exception : Type :=
| NameError (name : string)
| ValueError (msg : string)
| IndexError
| NotImplementedError.

Inductive result (A : Type) : Type :=
| Ok (a : A)
| Raise (e : exception).

Arguments Ok {A} a.
Arguments Raise {A} e.

Inductive warning_category : Type :=
| DeprecationWarning.

Definition warning := (warning_category * string)%type.

Record state := mkState {
  heap : list (list scalar);
  warned : list warning
}.

(** A one-dimensional array: [size] elements of buffer [base], from
    position [start] on. *)
Record ndarray := mkArray {
  base : nat;
  start : nat;
  size : nat
}.

Definition Py (A : Type) : Type := state -> result A * state.

Definition ret {A} (a : A) : Py A := fun s => (Ok a, s).

Definition raise {A} (e : exception) : Py A := fun s => (Raise e, s).

Definition bind {A B} (m : Py A) (f : A -> Py B) : Py B :=
  fun s =>
    match m s with
    | (Ok a, s') => f a s'
    | (Raise e, s') => (Raise e, s')
    end.

Definition lift {A} (r : result A) : Py A := fun s => (r, s).

Declare Scope py_scope.
Delimit Scope py_scope with py.
Notation "x <- m ;; k" := (bind m (fun x => k))
  (at level 100, m at next level, right associativity) : py_scope.
Notation "m ;;; k" := (bind m (fun _ => k))
  (at level 100, right associativity) : py_scope.
Local Open Scope py_scope.

(** ** The [numpy] primitives the module calls *)

Definition contents (s : state) (a : ndarray) : list scalar :=
  firstn (size a) (skipn (start a) (nth (base a) (heap s) [])).

(** A new buffer is appended to the store; the array covers all of it. *)
Definition alloc (v : list scalar) : Py ndarray :=
  fun s =>
    (Ok (mkArray (List.length (heap s)) 0 (List.length v)),
     mkState (heap s ++ [v]) (warned s)).

(** [np.array([...])] *)
Definition np_array (v : list scalar) : Py ndarray := alloc v.

(** [np.empty(0)] *)
Definition np_empty0 : Py ndarray := alloc [].

(** [y.ravel()] of a one-dimensional contiguous array: a view of it. *)
Definition ravel (a : ndarray) : Py ndarray := ret a.

Module ScalarOrder <: TotalLeBool.
Definition t := scalar.
Definition leb (x y : t) : bool := (x <=? y)%Z.
Infix "<=?" := leb (at level 70, no associativity).
Theorem leb_total : forall x y, (x <=? y) = true \/ (y <=? x) = true.
Proof. intros x y. unfold leb. lia. Qed.
End ScalarOrder.

Module ScalarSort := Sort ScalarOrder.

(** [np.sort(y)]: a sorted copy; [y] itself is left as it is
    (unlike the method [y.sort()]). *)
Definition np_sort (a : ndarray) : Py ndarray :=
  fun s => alloc (ScalarSort.sort (contents s a)) s.

(** [y[i]] for an integer [i]; a negative index counts from the end. *)
Definition getitem (a : ndarray) (i : Z) : Py scalar :=
  fun s =>
    let n := Z.of_nat (size a) in
    let j := if i <? 0 then i + n else i in
    if (0 <=? j) && (j <? n)
    then (Ok (nth (Z.to_nat j) (contents s a) 0), s)
    else (Raise IndexError, s).

(** The bounds of a slice [lo:hi], adjusted as Python does. *)
Definition adjust_index (n i : Z) : Z :=
  if i <? 0 then Z.max 0 (i + n) else Z.min i n.

(** [y[lo:hi]]: a view of the same buffer. *)
Definition getslice (a : ndarray) (lo hi : Z) : Py ndarray :=
  let n := Z.of_nat (size a) in
  let lo' := adjust_index n lo in
  let hi' := adjust_index n hi in
  ret (mkArray (base a) (start a + Z.to_nat lo') (Z.to_nat (hi' - lo'))).

(** [np.append(a, b)]: a new array holding the elements of [a], then
    those of [b]. *)
Definition np_append (a b : ndarray) : Py ndarray :=
  fun s => alloc (contents s a ++ contents s b) s.

(** ** Global names of the module *)

(** The names [kmn.py] binds at module level: its imports (lines 1-10) and
    its definitions. *)
Definition kmn_globals : list string :=
  [ "np"; "KMeans"; "AgglomerativeClustering"; "pd"; "BaseEstimator";
    "Categorical"; "Mixture"; "Normal"; "Dense"; "Dropout"; "math"; "ed";
    "tf"; "plt";
    "random_sampler"; "all_sampler"; "k_means_sampler";
    "agglomerative_sampler"; "distance_sampler"; "fixed_sampler";
    "sampler_from_name"; "sample_center_points"; "KernelMixtureNetwork" ].

(** The module with [import warnings] added. *)
Definition kmn_globals_with_warnings : list string :=
  "warnings" :: kmn_globals.

Definition bound (g : list string) (name : string) : bool :=
  existsb (String.eqb name) g.

(** [warnings.warn(msg, category)]: the name [warnings] is looked up in the
    module's globals first. *)
Definition warnings_warn (g : list string) (msg : string)
    (category : warning_category) : Py unit :=
  fun s =>
    if bound g "warnings"
    then (Ok tt, mkState (heap s) (warned s ++ [(category, msg)]))
    else (Raise (NameError "warnings"), s).

Definition sampler : Type := ndarray -> Z -> Py ndarray.

(** The [method] argument of [sample_center_points]: [None], a string or
    a function. *)
Inductive method_arg : Type :=
| MNone
| MStr (name : string)
| MCallable (f : sampler).

(** ** One possible behaviour of the libraries

    Used to run the module on concrete inputs: a generator whose
    permutation reverses the positions, a clustering that is defined when
    every point is the center of its own cluster, the integer part of the
    mean. *)

Definition example_permutation (n : nat) : list nat := rev (seq 0 n).

Definition example_KMeans_fit (k : Z) (v : list scalar) : result (list scalar) :=
  if k =? Z.of_nat (List.length v)
  then Ok (ScalarSort.sort v)
  else Raise (ValueError "example_KMeans_fit: one cluster per sample only").

Definition example_AgglomerativeClustering_fit (k : Z) (v : list scalar)
    : result (list nat) :=
  if k =? Z.of_nat (List.length v)
  then Ok (seq 0 (List.length v))
  else Raise (ValueError
                "example_AgglomerativeClustering_fit: one cluster per sample only").

Definition example_mean (v : list scalar) : scalar :=
  fold_right Z.add 0 v / Z.of_nat (List.length v).

(** ** The sampling strategies (lines 13-40) *)

Section Samplers.

(** What the libraries outside the repository compute, taken as given.
    They read the array they are given and leave it as it is ([KMeans]
    works on a copy of its data, [copy_x=True]).
    - [rng_permutation n] is the outcome of [permutation(n)] on numpy's
      global random generator;
    - [KMeans_fit k v] is [cluster_centers_] (flattened) of
      [KMeans(n_clusters=k).fit] on the column [v];
    - [AgglomerativeClustering_fit k v] is [labels_] of
      [AgglomerativeClustering(n_clusters=k, linkage='complete').fit];
    - [series_mean] is the mean of a pandas series. *)
Variable rng_permutation : nat -> list nat.
Variable KMeans_fit : Z -> list scalar -> result (list scalar).
Variable AgglomerativeClustering_fit : Z -> list scalar -> result (list nat).
Variable series_mean : list scalar -> scalar.

(** [np.random.choice(a, size, replace=False)] on a one-dimensional [a], as
    numpy's [RandomState.choice] does it: after its checks on [size] it
    returns [a[permutation(len(a))[:size]]], a new array. *)
Definition np_random_choice (a : ndarray) (n : Z) : Py ndarray :=
  fun s =>
    let v := contents s a in
    let pop_size := Z.of_nat (List.length v) in
    if (pop_size =? 0) && negb (n =? 0)
    then (Raise (ValueError "'a' cannot be empty unless no samples are taken"), s)
    else if n >? pop_size
    then (Raise (ValueError
            "Cannot take a larger sample than population when 'replace=False'"), s)
    else if n <? 0
    then (Raise (ValueError "negative dimensions are not allowed"), s)
    else
      let idx := firstn (Z.to_nat n) (rng_permutation (List.length v)) in
      alloc (map (fun i => nth i v 0) idx) s.

Definition random_sampler (y : ndarray) (k : Z) : Py ndarray :=
  np_random_choice y k.

Definition all_sampler (y : ndarray) (k : Z) : Py ndarray :=
  ret y.

Definition k_means_sampler (y : ndarray) (k : Z) : Py ndarray :=
  fun s =>
    match KMeans_fit k (contents s y) with
    | Ok centers => alloc centers s
    | Raise e => (Raise e, s)
    end.

(** [df.groupby('label')['y'].mean().values]: one mean per label, the
    labels in increasing order. *)
Definition group_means (v : list scalar) (labels : list nat) : list scalar :=
  map (fun l =>
         series_mean
           (map fst (filter (fun p => Nat.eqb (snd p) l) (combine v labels))))
      (NatSort.sort (nodup Nat.eq_dec labels)).

Definition agglomerative_sampler (y : ndarray) (k : Z) : Py ndarray :=
  fun s =>
    match AgglomerativeClustering_fit k (contents s y) with
    | Ok labels => alloc (group_means (contents s y) labels) s
    | Raise e => (Raise e, s)
    end.

Definition distance_sampler (y : ndarray) (k : Z) : Py ndarray :=
  raise NotImplementedError.

Definition fixed_sampler (y : ndarray) (k : Z) : Py ndarray :=
  np_array [1; 2; 3; 4; 5].

(** ** Lookup by name (lines 43-53) *)

Definition name_eqb (a b : option string) : bool :=
  match a, b with
  | None, None => true
  | Some x, Some y => String.eqb x y
  | _, _ => false
  end.

Fixpoint dict_get {V} (d : list (option string * V)) (key : option string)
    : option V :=
  match d with
  | [] => None
  | (k, v) :: d' => if name_eqb key k then Some v else dict_get d' key
  end.

Definition registry : list (option string * sampler) :=
  [ (Some "random", random_sampler);
    (Some "distance", distance_sampler);
    (Some "k_means", k_means_sampler);
    (Some "agglomerative", agglomerative_sampler);
    (None, all_sampler) ].

(** How an f-string prints the name. *)
Definition format_name (name : option string) : string :=
  match name with
  | Some s => s
  | None => "None"
  end.

Definition sampler_from_name (name : option string) : result sampler :=
  match dict_get registry name with
  | Some f => Ok f
  | None => Raise (ValueError ("unknown method " ++ format_name name))
  end.

(** ** [sample_center_points] (lines 56-80) *)

Definition resolve_method (g : list string) (method : method_arg) : Py sampler :=
  match method with
  | MCallable f => ret f
  | MStr name =>
      warnings_warn g
        "Passing a string as method is deprecated, pass a sampler method instead"
        DeprecationWarning ;;;
      lift (sampler_from_name (Some name))
  | MNone =>
      warnings_warn g
        "Passing a string as method is deprecated, pass a sampler method instead"
        DeprecationWarning ;;;
      lift (sampler_from_name None)
  end.

(** The body of [sample_center_points], run in a module whose global names
    are [g]. *)
Definition sample_center_points_in (g : list string)
    (y : ndarray) (method : method_arg) (k : Z) (keep_edges : bool)
    : Py ndarray :=
  (if negb (k =? 100)
   then warnings_warn g
          "Passing k is deprected, pass a sampler method instead"
          DeprecationWarning
   else ret tt) ;;;
  method <- resolve_method g method ;;
  y <- ravel y ;;
  centers <- np_empty0 ;;
  edges <- (if keep_edges
            then
              y <- np_sort y ;;
              lo <- getitem y 0 ;;
              hi <- getitem y (-1) ;;
              centers <- np_array [lo; hi] ;;
              y <- getslice y 1 (-1) ;;
              ret (centers, y, k - 2)
            else ret (centers, y, k)) ;;
  let '(centers, y, k) := edges in
  cluster_centers <- method y k ;;
  np_append centers cluster_centers.

(** The function as the module defines it. *)
Definition sample_center_points : ndarray -> method_arg -> Z -> bool -> Py ndarray :=
  sample_center_points_in kmn_globals.

(** A call from outside: the caller owns one array holding [targets]; the
    observable outcome is the warnings emitted and the elements of the
    returned array, or the exception. *)
Definition caller_state (targets : list scalar) : state :=
  mkState [targets] [].

Definition caller_array (targets : list scalar) : ndarray :=
  mkArray 0 0 (List.length targets).

Definition observe (r : result ndarray * state)
    : list warning * result (list scalar) :=
  match r with
  | (Ok a, s) => (warned s, Ok (contents s a))
  | (Raise e, s) => (warned s, Raise e)
  end.

Definition call_in (g : list string) (targets : list scalar)
    (method : method_arg) (k : Z) (keep_edges : bool)
    : list warning * result (list scalar) :=
  observe (sample_center_points_in g (caller_array targets) method k keep_edges
             (caller_state targets)).

Definition call (targets : list scalar) (method : method_arg) (k : Z)
    (keep_edges : bool) : list warning * result (list scalar) :=
  observe (sample_center_points (caller_array targets) method k keep_edges
             (caller_state targets)).

(** ** The specification's vocabulary *)

(** The specification names error kinds of its own (its section 7); the
    module raises Python's built-in exceptions.  An exception stands for a
    kind of the specification when it has the built-in class Python uses
    for it: [ValueError] for an argument whose value is not acceptable (the
    class line 53 and [numpy] raise), [NotImplementedError] for the reserved
    strategy.  [NameError] and [IndexError] stand for none of them. *)
Inductive spec_error : Type :=
| ConfigurationError
| UnknownStrategyError
| SamplingError
| ShapeError
| NotImplemented.

Definition realises (c : spec_error) (e : exception) : bool :=
  match c, e with
  | NotImplemented, NotImplementedError => true
  | NotImplemented, _ => false
  | _, ValueError _ => true
  | _, _ => false
  end.

Definition fails_with (c : spec_error) (o : list warning * result (list scalar))
    : Prop :=
  exists e, snd o = Raise e /\ realises c e = true.

(** Smallest and largest element ([np.min], [np.max]). *)
Definition minimum (v : list scalar) : scalar := fold_right Z.min (hd 0 v) v.
Definition maximum (v : list scalar) : scalar := fold_right Z.max (hd 0 v) v.

(** The values left for the strategy once the two edges are taken off the
    sorted copy: [np.sort(y)[1:-1]]. *)
Definition interior (v : list scalar) : list scalar :=
  firstn (List.length v - 2) (skipn 1 (ScalarSort.sort v)).

(** The strategy the call ends up invoking. *)
Definition strategy_of (method : method_arg) : result sampler :=
  match method with
  | MCallable f => Ok f
  | MStr name => sampler_from_name (Some name)
  | MNone => sampler_from_name None
  end.

Definition is_callable (method : method_arg) : bool :=
  match method with
  | MCallable _ => true
  | _ => false
  end.

(** The deprecation notices a call emits, in order. *)
Definition notices (method : method_arg) (k : Z) : list warning :=
  (if k =? 100 then []
   else [(DeprecationWarning,
          "Passing k is deprected, pass a sampler method instead")])
  ++
  (if is_callable method then []
   else [(DeprecationWarning,
          "Passing a string as method is deprecated, pass a sampler method instead")]).

(** An array that lives in the store. *)
Definition valid (s : state) (a : ndarray) : Prop :=
  (base a < List.length (heap s))%nat.

(** The store only grew: every buffer of [s] is in [s'], unchanged. *)
Definition heap_extends (s s' : state) : Prop :=
  exists new, heap s' = heap s ++ new.

(** A strategy that writes to no existing array. *)
Definition allocates_only (m : sampler) : Prop :=
  forall a k s r s', m a k s = (r, s') -> heap_extends s s'.

(** A strategy of the table's column "returns exactly k". *)
Definition returns_exactly_k (m : sampler) : Prop :=
  forall a k s r s',
    m a k s = (Ok r, s') -> Z.of_nat (List.length (contents s' r)) = k.

(** A strategy that neither reads nor emits warnings. *)
Definition warning_blind (m : sampler) : Prop :=
  forall a k h w w',
    m a k (mkState h w')
    = (fst (m a k (mkState h w)),
       mkState (heap (snd (m a k (mkState h w)))) w')
    /\ warned (snd (m a k (mkState h w))) = w.

(** Lines 67-80, once the strategy [m] is known. *)
Definition select_centers (m : sampler) (y : ndarray) (k : Z)
    (keep_edges : bool) : Py ndarray :=
  y <- ravel y ;;
  centers <- np_empty0 ;;
  edges <- (if keep_edges
            then
              y <- np_sort y ;;
              lo <- getitem y 0 ;;
              hi <- getitem y (-1) ;;
              centers <- np_array [lo; hi] ;;
              y <- getslice y 1 (-1) ;;
              ret (centers, y, k - 2)
            else ret (centers, y, k)) ;;
  let '(centers, y, k) := edges in
  cluster_centers <- m y k ;;
  np_append centers cluster_centers.

(** ** The estimator: [fit], [partial_fit] and the centers of [_build_model]
       (lines 128-172 and 203-227)

    The estimator works on a TensorFlow graph through edward and keras.
    What these libraries do is a parameter: [graph] stands for everything
    the object reaches through [self.sess], [self.inference] and the tensors
    it stores; each library call is a function on it that returns a value or
    raises.  The attributes the methods read and assign themselves, the
    lines they print and their local variables are modelled as they are. *)

Record libraries : Type := mkLibraries {
  graph : Type;
  features : Type;
  loss_value : Type;
  library_error : Type;
  (** lines 208-223: placeholders and the default network, with the
      attributes that hold them ([y_ph], [n_sample_ph], [n_features],
      [X_ph], [estimator], [batch_size]), which are part of [graph] *)
  graph_before_centers :
    features -> list scalar -> graph -> option library_error * graph;
  (** lines 228-259: the mixture on top of the centers [locs] *)
  graph_after_centers :
    list scalar -> Z -> list scalar -> graph -> option library_error * graph;
  (** line 136: [ed.MAP(...)] *)
  ed_MAP : graph -> option library_error * graph;
  (** lines 137-138: [initialize] and the variable initializer *)
  inference_initialize : Z -> graph -> option library_error * graph;
  (** line 154: [self.inference.update(...)['loss']] *)
  inference_update :
    features -> list scalar -> graph -> (loss_value + library_error) * graph;
  (** line 161: [self.sess.run(self.inference.loss, ...)] *)
  sess_run_loss :
    features -> list scalar -> graph -> (loss_value + library_error) * graph;
  (** line 172: [self.sess.run(self.scales)], as [format] prints it *)
  sess_run_scales : graph -> (string + library_error) * graph;
  (** [loss / len(y)] and [-loss] on numpy scalars *)
  divide : loss_value -> nat -> loss_value;
  negate : loss_value -> loss_value;
  (** ["{:.3f}".format(loss)] *)
  format_loss : loss_value -> string
}.

Section Estimator.

Variable L : libraries.

Inductive py_exception : Type :=
| SamplerException (e : exception)
| AttributeError (msg : string)
| UnboundLocalError (name : string)
| LibraryException (e : library_error L).

Inductive outcome (A : Type) : Type :=
| Returned (a : A)
| Raised (e : py_exception).

Arguments Returned {A} a.
Arguments Raised {A} e.

(** What the methods write: lines printed, the progress bar of
    [print_progress], warnings. *)
Inductive event : Type :=
| Printed (line : string)
| Progress (loss : loss_value L)
| Warned (w : warning).

(** The attributes of the object that the methods below read or assign. *)
Record estimator : Type := mkEstimator {
  self_center_sampling_method : method_arg;
  self_n_centers : Z;
  self_keep_edges : bool;
  self_inference : option unit;
  self_train_loss : list (loss_value L);
  self_test_loss : list (loss_value L);
  self_fitted : bool;
  self_locs : option (list scalar)
}.

Record machine : Type := mkMachine {
  self : estimator;
  world : graph L;
  stdout : list event
}.

Definition Est (A : Type) : Type := machine -> outcome A * machine.

Definition est_ret {A} (a : A) : Est A := fun st => (Returned a, st).

Definition est_raise {A} (e : py_exception) : Est A :=
  fun st => (Raised e, st).

Definition est_bind {A B} (m : Est A) (f : A -> Est B) : Est B :=
  fun st =>
    match m st with
    | (Returned a, st') => f a st'
    | (Raised e, st') => (Raised e, st')
    end.

Definition get_self : Est estimator := fun st => (Returned (self st), st).

Definition set_self (o : estimator) : Est unit :=
  fun st => (Returned tt, mkMachine o (world st) (stdout st)).

Definition emit (e : event) : Est unit :=
  fun st => (Returned tt, mkMachine (self st) (world st) (stdout st ++ [e])).

(** A library call that returns nothing. *)
Definition library_do (f : graph L -> option (library_error L) * graph L)
    : Est unit :=
  fun st =>
    match f (world st) with
    | (None, w) => (Returned tt, mkMachine (self st) w (stdout st))
    | (Some e, w) =>
        (Raised (LibraryException e), mkMachine (self st) w (stdout st))
    end.

(** A library call that returns a value. *)
Definition library_call {A}
    (f : graph L -> (A + library_error L) * graph L) : Est A :=
  fun st =>
    match f (world st) with
    | (inl a, w) => (Returned a, mkMachine (self st) w (stdout st))
    | (inr e, w) =>
        (Raised (LibraryException e), mkMachine (self st) w (stdout st))
    end.

(** Reading a local variable that may not have been assigned. *)
Definition read_local {A} (name : string) (v : option A) : Est A :=
  match v with
  | Some a => est_ret a
  | None => est_raise (UnboundLocalError name)
  end.

Definition set_train_loss (o : estimator) (v : list (loss_value L))
    : estimator :=
  mkEstimator (self_center_sampling_method o) (self_n_centers o)
    (self_keep_edges o) (self_inference o) v (self_test_loss o)
    (self_fitted o) (self_locs o).

Definition set_test_loss (o : estimator) (v : list (loss_value L))
    : estimator :=
  mkEstimator (self_center_sampling_method o) (self_n_centers o)
    (self_keep_edges o) (self_inference o) (self_train_loss o) v
    (self_fitted o) (self_locs o).

Definition set_inference (o : estimator) (v : option unit) : estimator :=
  mkEstimator (self_center_sampling_method o) (self_n_centers o)
    (self_keep_edges o) v (self_train_loss o) (self_test_loss o)
    (self_fitted o) (self_locs o).

Definition set_fitted (o : estimator) (v : bool) : estimator :=
  mkEstimator (self_center_sampling_method o) (self_n_centers o)
    (self_keep_edges o) (self_inference o) (self_train_loss o)
    (self_test_loss o) v (self_locs o).

Definition set_locs (o : estimator) (v : option (list scalar)) : estimator :=
  mkEstimator (self_center_sampling_method o) (self_n_centers o)
    (self_keep_edges o) (self_inference o) (self_train_loss o)
    (self_test_loss o) (self_fitted o) v.

(** One pass of the loop of [partial_fit] (lines 153-166).  The locals
    [train_loss] and [test_loss] are assigned by the pass. *)
Definition epoch (X : features L) (y : list scalar)
    (eval_set : option (features L * list scalar))
    (locals : option (loss_value L) * option (loss_value L))
    : Est (option (loss_value L) * option (loss_value L)) :=
  est_bind get_self (fun o =>
  est_bind
    (match self_inference o with
     | None =>
         est_raise
           (AttributeError "'NoneType' object has no attribute 'update'")
     | Some _ => library_call (inference_update L X y)
     end) (fun loss =>
  let train_loss := divide L loss (List.length y) in
  est_bind get_self (fun o =>
  est_bind (set_self (set_train_loss o
                        (self_train_loss o ++ [negate L train_loss])))
    (fun _ =>
  est_bind
    (match eval_set with
     | Some (X_test, y_test) =>
         est_bind (library_call (sess_run_loss L X_test y_test)) (fun l =>
         let test_loss := divide L l (List.length y_test) in
         est_bind get_self (fun o =>
         est_bind (set_self (set_test_loss o
                               (self_test_loss o ++ [negate L test_loss])))
           (fun _ => est_ret (Some test_loss))))
     | None => est_ret (snd locals)
     end) (fun test_loss =>
  est_bind get_self (fun o =>
  est_bind (if negb (self_fitted o) then emit (Progress loss) else est_ret tt)
    (fun _ => est_ret (Some train_loss, test_loss)))))))).

(** [for i in range(n_epoch)]: the passes, one after the other. *)
Fixpoint epochs (n : nat) (X : features L) (y : list scalar)
    (eval_set : option (features L * list scalar))
    (locals : option (loss_value L) * option (loss_value L))
    : Est (option (loss_value L) * option (loss_value L)) :=
  match n with
  | O => est_ret locals
  | S n' =>
      est_bind (epoch X y eval_set locals) (fun locals' =>
      epochs n' X y eval_set locals')
  end.

Definition partial_fit (X : features L) (y : list scalar) (n_epoch : Z)
    (eval_set : option (features L * list scalar)) : Est unit :=
  est_bind (emit (Printed "fitting model")) (fun _ =>
  est_bind (epochs (Z.to_nat n_epoch) X y eval_set (None, None))
    (fun locals =>
  est_bind (read_local "train_loss" (fst locals)) (fun train_loss =>
  est_bind (emit (Printed ("mean log-loss train: "
                           ++ format_loss L train_loss))) (fun _ =>
  est_bind
    (match eval_set with
     | Some _ =>
         est_bind (read_local "test_loss" (snd locals)) (fun test_loss =>
         emit (Printed ("man log-loss test: " ++ format_loss L test_loss)))
     | None => est_ret tt
     end) (fun _ =>
  est_bind (library_call (sess_run_scales L)) (fun scales =>
  emit (Printed ("optimal scales: " ++ scales)))))))).

(** The part of [_build_model] up to the centers (lines 207-227), then the
    rest of the graph. *)
Definition _build_model (X : features L) (y : list scalar) : Est unit :=
  est_bind (library_do (graph_before_centers L X y)) (fun _ =>
  est_bind get_self (fun o =>
  let n_locs := self_n_centers o in
  let '(ws, r) := call y (self_center_sampling_method o) n_locs
                    (self_keep_edges o) in
  est_bind (fun st => (Returned tt,
                       mkMachine (self st) (world st)
                         (stdout st ++ map Warned ws))) (fun _ =>
  match r with
  | Raise e => est_raise (SamplerException e)
  | Ok locs =>
      est_bind get_self (fun o =>
      est_bind (set_self (set_locs o (Some locs))) (fun _ =>
      library_do (graph_after_centers L locs n_locs y)))
  end))).

Definition fit (X : features L) (y : list scalar) (n_epoch : Z)
    (eval_set : option (features L * list scalar)) : Est unit :=
  est_bind (_build_model X y) (fun _ =>
  est_bind (library_do (ed_MAP L)) (fun _ =>
  est_bind get_self (fun o =>
  est_bind (set_self (set_inference o (Some tt))) (fun _ =>
  est_bind (library_do (inference_initialize L n_epoch)) (fun _ =>
  est_bind (partial_fit X y n_epoch eval_set) (fun _ =>
  est_bind get_self (fun o =>
  set_self (set_fitted o true)))))))).

End Estimator.

Global Arguments Returned {L A} a.
Global Arguments Raised {L A} e.
Global Arguments SamplerException {L} e.
Global Arguments AttributeError {L} msg.
Global Arguments UnboundLocalError {L} name.
Global Arguments LibraryException {L} e.
Global Arguments Printed {L} line.
Global Arguments Progress {L} loss.
Global Arguments Warned {L} w.
Global Arguments mkEstimator {L}.
Global Arguments mkMachine {L}.
Global Arguments self_center_sampling_method {L} e.
Global Arguments self_n_centers {L} e.
Global Arguments self_keep_edges {L} e.
Global Arguments self_inference {L} e.
Global Arguments self_train_loss {L} e.
Global Arguments self_test_loss {L} e.
Global Arguments self_fitted {L} e.
Global Arguments self_locs {L} e.
Global Arguments self {L} m.
Global Arguments world {L} m.
Global Arguments stdout {L} m.
Global Arguments set_train_loss {L} o v.
Global Arguments set_test_loss {L} o v.
Global Arguments set_inference {L} o v.
Global Arguments set_fitted {L} o v.
Global Arguments set_locs {L} o v.

(** An event of the progress bar. *)
Definition is_progress {L : libraries} (e : event L) : Prop :=
  match e with
  | Progress _ => True
  | _ => False
  end.

(** The attributes [partial_fit] has no assignment to. *)
Definition same_settings {L : libraries} (o o' : estimator L) : Prop :=
  self_center_sampling_method o' = self_center_sampling_method o
  /\ self_n_centers o' = self_n_centers o
  /\ self_keep_edges o' = self_keep_edges o
  /\ self_inference o' = self_inference o
  /\ self_fitted o' = self_fitted o
  /\ self_locs o' = self_locs o.

(** The attributes as [__init__] leaves them (lines 105-126), for the
    arguments given; [locs] is not assigned yet. *)
Definition new_estimator {L : libraries} (center_sampling_method : method_arg)
    (n_centers : Z) (keep_edges : bool) : estimator L :=
  mkEstimator center_sampling_method n_centers keep_edges None [] [] false
    None.

(** The estimator of [KernelMixtureNetwork()]: the defaults of line 86. *)
Definition default_estimator {L : libraries} : estimator L :=
  new_estimator (MStr "k_means") 20 false.

(** One possible behaviour of the graph libraries, used to run the methods
    on concrete inputs: the graph is the number of library calls made so
    far, no call fails, every loss is the number of targets. *)
Definition example_libraries : libraries :=
  mkLibraries nat unit Z string
    (fun _ _ g => (None, S g))
    (fun _ _ _ g => (None, S g))
    (fun g => (None, S g))
    (fun _ g => (None, S g))
    (fun _ y g => (inl (Z.of_nat (List.length y)), S g))
    (fun _ y g => (inl (Z.of_nat (List.length y)), S g))
    (fun g => (inl "[1.]", S g))
    (fun l n => l / Z.of_nat n)
    Z.opp
    (fun l => if l =? 1 then "1.000" else "?").

(** * Properties *)

(** ** The store *)

Lemma heap_extends_refl : forall s, heap_extends s s.
Proof. intros s. exists []. now rewrite app_nil_r. Qed.

Lemma heap_extends_trans : forall s1 s2 s3,
  heap_extends s1 s2 -> heap_extends s2 s3 -> heap_extends s1 s3.
Proof.
  intros s1 s2 s3 [n1 H1] [n2 H2]. exists (n1 ++ n2).
  now rewrite H2, H1, app_assoc.
Qed.

Lemma contents_extends : forall s s' a,
  valid s a -> heap_extends s s' -> contents s' a = contents s a.
Proof.
  unfold valid, contents. intros s s' a Hv [new ->].
  now rewrite app_nth1.
Qed.

Lemma contents_whole : forall h w v h',
  contents (mkState (h ++ v :: h') w) (mkArray (List.length h) 0 (List.length v)) = v.
Proof.
  intros. unfold contents. simpl.
  rewrite app_nth2, Nat.sub_diag by lia. simpl. apply firstn_all.
Qed.

Lemma alloc_eq : forall v s,
  alloc v s =
  (Ok (mkArray (List.length (heap s)) 0 (List.length v)),
   mkState (heap s ++ [v]) (warned s)).
Proof. reflexivity. Qed.
(** ** Sorting, smallest and largest element *)

Lemma fold_min_le : forall v d x, In x v -> fold_right Z.min d v <= x.
Proof.
  induction v as [|a v IH]; intros d x Hin; [destruct Hin|].
  simpl. destruct Hin as [-> | Hin]; [lia|].
  specialize (IH d x Hin). lia.
Qed.

Lemma fold_max_ge : forall v d x, In x v -> x <= fold_right Z.max d v.
Proof.
  induction v as [|a v IH]; intros d x Hin; [destruct Hin|].
  simpl. destruct Hin as [-> | Hin]; [lia|].
  specialize (IH d x Hin). lia.
Qed.

Lemma fold_min_In : forall v d,
  fold_right Z.min d v = d \/ In (fold_right Z.min d v) v.
Proof.
  induction v as [|a v IH]; intros d; [now left|].
  simpl. destruct (Z.min_spec a (fold_right Z.min d v)) as [[_ ->] | [_ ->]].
  - right. now left.
  - destruct (IH d) as [H | H]; [now left | right; now right].
Qed.

Lemma fold_max_In : forall v d,
  fold_right Z.max d v = d \/ In (fold_right Z.max d v) v.
Proof.
  induction v as [|a v IH]; intros d; [now left|].
  simpl. destruct (Z.max_spec a (fold_right Z.max d v)) as [[_ ->] | [_ ->]].
  - destruct (IH d) as [H | H]; [now left | right; now right].
  - right. now left.
Qed.

Lemma minimum_le : forall v x, In x v -> minimum v <= x.
Proof. intros v x. apply fold_min_le. Qed.

Lemma maximum_ge : forall v x, In x v -> x <= maximum v.
Proof. intros v x. apply fold_max_ge. Qed.

Lemma minimum_In : forall v, v <> [] -> In (minimum v) v.
Proof.
  intros [|a v] Hne; [congruence|]. unfold minimum.
  destruct (fold_min_In (a :: v) (hd 0 (a :: v))) as [H | H]; [|exact H].
  rewrite H. now left.
Qed.

Lemma maximum_In : forall v, v <> [] -> In (maximum v) v.
Proof.
  intros [|a v] Hne; [congruence|]. unfold maximum.
  destruct (fold_max_In (a :: v) (hd 0 (a :: v))) as [H | H]; [|exact H].
  rewrite H. now left.
Qed.

Lemma leb_transitive : Transitive (fun x y => is_true (ScalarOrder.leb x y)).
Proof.
  intros x y z. unfold ScalarOrder.leb, is_true.
  rewrite !Z.leb_le. lia.
Qed.

Lemma sort_sorted : forall v,
  StronglySorted (fun x y => x <= y) (ScalarSort.sort v).
Proof.
  intros v.
  pose proof (ScalarSort.StronglySorted_sort v leb_transitive) as H.
  induction H as [|a l Hs IH Hall]; constructor; [assumption|].
  eapply Forall_impl; [|exact Hall].
  intros x Hx. now apply Z.leb_le.
Qed.

Lemma sorted_first_le : forall l x,
  StronglySorted (fun x y => x <= y) l -> In x l -> nth 0 l 0 <= x.
Proof.
  intros l x Hs Hin. destruct Hs as [|a l Hs Hall]; [destruct Hin|].
  simpl. destruct Hin as [-> | Hin]; [lia|].
  rewrite Forall_forall in Hall. now apply Hall.
Qed.

Lemma sorted_last_ge : forall l x,
  StronglySorted (fun x y => x <= y) l ->
  In x l -> x <= nth (List.length l - 1) l 0.
Proof.
  intros l x Hs. revert x.
  induction Hs as [|a l Hs IH Hall]; intros x Hin; [destruct Hin|].
  destruct l as [|b l]; [destruct Hin as [-> | []]; simpl; lia|].
  replace (nth (List.length (a :: b :: l) - 1) (a :: b :: l) 0)
    with (nth (List.length (b :: l) - 1) (b :: l) 0)
    by (simpl; now rewrite Nat.sub_0_r).
  destruct Hin as [-> | Hin]; [|now apply IH].
  rewrite Forall_forall in Hall.
  apply Z.le_trans with b; [apply Hall; now left|].
  apply IH. now left.
Qed.

Lemma sort_nonempty : forall v, v <> [] -> ScalarSort.sort v <> [].
Proof.
  intros v Hne Hs.
  pose proof (Permutation_length (ScalarSort.Permuted_sort v)) as Hl.
  rewrite Hs in Hl. destruct v; [congruence | discriminate].
Qed.

Lemma sort_length : forall v, List.length (ScalarSort.sort v) = List.length v.
Proof.
  intros v. symmetry. apply Permutation_length, ScalarSort.Permuted_sort.
Qed.

Lemma sort_In : forall v x, In x (ScalarSort.sort v) <-> In x v.
Proof.
  intros v x. split; apply Permutation_in.
  - apply Permutation_sym, ScalarSort.Permuted_sort.
  - apply ScalarSort.Permuted_sort.
Qed.

(** The first element of the sorted copy is the minimum, the last one the
    maximum. *)
Lemma sort_first_minimum : forall v,
  v <> [] -> nth 0 (ScalarSort.sort v) 0 = minimum v.
Proof.
  intros v Hne.
  assert (Hin : In (nth 0 (ScalarSort.sort v) 0) v).
  { apply sort_In, nth_In.
    pose proof (sort_nonempty v Hne). destruct (ScalarSort.sort v);
      [congruence | simpl; lia]. }
  apply Z.le_antisymm.
  - apply sorted_first_le; [apply sort_sorted|]. apply sort_In.
    now apply minimum_In.
  - now apply minimum_le.
Qed.

Lemma sort_last_maximum : forall v,
  v <> [] ->
  nth (List.length (ScalarSort.sort v) - 1) (ScalarSort.sort v) 0 = maximum v.
Proof.
  intros v Hne.
  assert (Hin : In (nth (List.length (ScalarSort.sort v) - 1)
                       (ScalarSort.sort v) 0) v).
  { apply sort_In, nth_In.
    pose proof (sort_nonempty v Hne). destruct (ScalarSort.sort v);
      [congruence | simpl; lia]. }
  apply Z.le_antisymm.
  - now apply maximum_ge.
  - apply sorted_last_ge; [apply sort_sorted|]. apply sort_In.
    now apply maximum_In.
Qed.

Lemma last_as_nth : forall (l : list scalar) d,
  last l d = nth (List.length l - 1) l d.
Proof.
  induction l as [|a l IH]; intros d; [reflexivity|].
  destruct l as [|b l]; [reflexivity|].
  change (last (a :: b :: l) d) with (last (b :: l) d). rewrite IH.
  simpl. now rewrite Nat.sub_0_r.
Qed.

(** A list of two elements or more is its first element, its middle and
    its last element. *)
Lemma first_middle_last : forall (l : list scalar),
  (2 <= List.length l)%nat ->
  l = nth 0 l 0 :: firstn (List.length l - 2) (skipn 1 l)
        ++ [nth (List.length l - 1) l 0].
Proof.
  intros [|a t] Hl; [simpl in Hl; lia|].
  simpl in Hl. cbn [nth skipn List.length]. f_equal.
  replace (S (List.length t) - 2)%nat with (pred (List.length t)) by lia.
  replace (S (List.length t) - 1)%nat with (List.length t) by lia.
  rewrite <- removelast_firstn_len.
  assert (Hne : t <> []) by (destruct t; [simpl in Hl; lia | discriminate]).
  rewrite (app_removelast_last 0 Hne) at 1. do 2 f_equal.
  rewrite last_as_nth. destruct t; [congruence|]. simpl.
  now rewrite Nat.sub_0_r.
Qed.

(** Trimming takes one occurrence of the minimum and one of the maximum
    off the input. *)
Lemma interior_permutation : forall v,
  (2 <= List.length v)%nat ->
  Permutation v (minimum v :: interior v ++ [maximum v]).
Proof.
  intros v Hl.
  assert (Hne : v <> []) by (destruct v; [simpl in Hl; lia | discriminate]).
  rewrite <- (sort_first_minimum v Hne), <- (sort_last_maximum v Hne).
  unfold interior. rewrite <- (sort_length v).
  rewrite <- first_middle_last by (rewrite sort_length; exact Hl).
  apply ScalarSort.Permuted_sort.
Qed.

(** ** Running [sample_center_points] *)

(** The deprecated paths stop at their notice when [warnings] is not a
    global name of the module. *)
Lemma deprecated_raises_NameError : forall g y method k keep_edges s,
  bound g "warnings" = false ->
  k <> 100 \/ is_callable method = false ->
  sample_center_points_in g y method k keep_edges s
  = (Raise (NameError "warnings"), s).
Proof.
  intros g y method k keep_edges s Hg Hdep.
  unfold sample_center_points_in, bind, warnings_warn. rewrite Hg.
  destruct (k =? 100) eqn:Hk; simpl; [|reflexivity].
  destruct Hdep as [Hne | Hc]; [apply Z.eqb_eq in Hk; contradiction|].
  destruct method; simpl in Hc; try discriminate;
    unfold resolve_method, bind, warnings_warn; now rewrite Hg.
Qed.

Lemma bind_warn : forall {A} g msg c (p : Py A) s,
  bound g "warnings" = true ->
  (warnings_warn g msg c ;;; p) s
  = p (mkState (heap s) (warned s ++ [(c, msg)])).
Proof.
  intros A g msg c p s Hg. unfold bind, warnings_warn. now rewrite Hg.
Qed.

Lemma bind_ret : forall {A B} (a : A) (f : A -> Py B) s,
  (x <- ret a ;; f x) s = f a s.
Proof. reflexivity. Qed.

Lemma bind_lift : forall {A B} (r : result A) (f : A -> Py B) s,
  (x <- lift r ;; f x) s
  = match r with Ok a => f a s | Raise e => (Raise e, s) end.
Proof. intros A B [a | e] f s; reflexivity. Qed.

Lemma bind_assoc : forall {A B C} (p : Py A) (f : A -> Py B) (h : B -> Py C) s,
  (y <- (x <- p ;; f x) ;; h y) s = (x <- p ;; y <- f x ;; h y) s.
Proof.
  intros A B C p f h s. unfold bind. destruct (p s) as [[a | e] s']; reflexivity.
Qed.

(** Otherwise the notices are recorded, the name is looked up and lines
    67-80 run. *)
Lemma sample_center_points_in_run : forall g y method k keep_edges s,
  bound g "warnings" = true \/ (k = 100 /\ is_callable method = true) ->
  sample_center_points_in g y method k keep_edges s
  = match strategy_of method with
    | Ok m => select_centers m y k keep_edges
                (mkState (heap s) (warned s ++ notices method k))
    | Raise e => (Raise e, mkState (heap s) (warned s ++ notices method k))
    end.
Proof.
  intros g y method k keep_edges s Hrun.
  unfold sample_center_points_in, notices.
  fold (select_centers).
  destruct Hrun as [Hg | [-> Hc]].
  - destruct (k =? 100) eqn:Hk; destruct method as [|name|f];
      cbn [negb is_callable strategy_of resolve_method app];
      rewrite ?bind_ret; rewrite ?(bind_warn g) by assumption;
      rewrite ?bind_assoc; rewrite ?(bind_warn g) by assumption;
      rewrite ?bind_lift; cbn [heap warned];
      rewrite <- ?app_assoc; cbn [app]; rewrite ?app_nil_r;
      try (destruct (sampler_from_name _)); destruct s; reflexivity.
  - destruct method; simpl in Hc; try discriminate.
    cbn [negb Z.eqb is_callable strategy_of resolve_method app].
    rewrite app_nil_r. destruct s; reflexivity.
Qed.

Lemma select_centers_plain : forall m y k s,
  select_centers m y k false s
  = (cc <- m y k ;; np_append (mkArray (List.length (heap s)) 0 0) cc)
      (mkState (heap s ++ [[]]) (warned s)).
Proof. reflexivity. Qed.

Lemma contents_after_alloc : forall s a v,
  valid s a -> contents (mkState (heap s ++ v) (warned s)) a = contents s a.
Proof.
  intros s a v Hv. apply contents_extends; [assumption|]. now exists v.
Qed.

Lemma getitem_first : forall a s,
  (0 < size a)%nat -> getitem a 0 s = (Ok (nth 0 (contents s a) 0), s).
Proof.
  intros a s Hn. unfold getitem. change (0 <? 0) with false. cbv iota.
  assert (H : (0 <=? 0) && (0 <? Z.of_nat (size a)) = true).
  { apply andb_true_iff. split; [apply Z.leb_le | apply Z.ltb_lt]; lia. }
  now rewrite H.
Qed.

Lemma getitem_last : forall a s,
  (0 < size a)%nat ->
  getitem a (-1) s = (Ok (nth (size a - 1) (contents s a) 0), s).
Proof.
  intros a s Hn. unfold getitem. change (-1 <? 0) with true. cbv iota.
  assert (H : (0 <=? -1 + Z.of_nat (size a))
              && (-1 + Z.of_nat (size a) <? Z.of_nat (size a)) = true).
  { apply andb_true_iff. split; [apply Z.leb_le | apply Z.ltb_lt]; lia. }
  rewrite H. do 3 f_equal. lia.
Qed.

Lemma select_centers_edges_empty : forall m y k s,
  valid s y -> contents s y = [] ->
  select_centers m y k true s
  = (Raise IndexError, mkState (heap s ++ [[]; []]) (warned s)).
Proof.
  intros m y k s Hv He.
  unfold select_centers, ravel, np_empty0, np_sort.
  rewrite bind_ret. unfold bind at 1. rewrite alloc_eq.
  unfold bind at 1. unfold bind at 1.
  rewrite (contents_after_alloc s y [[]] Hv), He.
  rewrite alloc_eq. cbn. now rewrite <- app_assoc.
Qed.

Lemma select_centers_edges : forall m y k s,
  valid s y -> contents s y <> [] ->
  let sv := ScalarSort.sort (contents s y) in
  let n := List.length (heap s) in
  select_centers m y k true s
  = (cc <- m (mkArray (S n) 1 (List.length sv - 2)) (k - 2) ;;
     np_append (mkArray (S (S n)) 0 2) cc)
      (mkState
         (heap s ++ [[]; sv; [nth 0 sv 0; nth (List.length sv - 1) sv 0]])
         (warned s)).
Proof.
  intros m y k s Hv Hne sv n.
  assert (Hlen : (0 < List.length sv)%nat).
  { unfold sv. rewrite <- (Permutation_length (ScalarSort.Permuted_sort _)).
    destruct (contents s y); [congruence | simpl; lia]. }
  unfold select_centers, ravel, np_empty0, np_sort.
  rewrite bind_ret. unfold bind at 1. rewrite alloc_eq.
  unfold bind at 1. unfold bind at 1.
  rewrite (contents_after_alloc s y [[]] Hv). fold sv.
  rewrite alloc_eq. cbn [heap warned].
  rewrite length_app. cbn [List.length]. rewrite Nat.add_1_r. fold n.
  rewrite <- app_assoc. cbn [app].
  assert (Hc : contents (mkState (heap s ++ [[]; sv]) (warned s))
                 (mkArray (S n) 0 (List.length sv)) = sv).
  { replace (S n) with (List.length (heap s ++ [[]]))
      by (rewrite length_app; simpl; unfold n; lia).
    replace (heap s ++ [[]; sv]) with ((heap s ++ [[]]) ++ sv :: [])
      by (now rewrite <- app_assoc).
    apply contents_whole. }
  unfold bind at 1. rewrite getitem_first by (cbn [size]; lia). rewrite Hc.
  unfold bind at 1. rewrite getitem_last by (cbn [size]; lia). rewrite Hc.
  cbn [size].
  unfold bind at 1. unfold np_array. rewrite alloc_eq. cbn [heap warned].
  rewrite length_app. cbn [List.length].
  replace (List.length (heap s) + 2)%nat with (S (S n)) by (unfold n; lia).
  rewrite <- app_assoc. cbn [app].
  unfold getslice, adjust_index. cbn [size base start].
  rewrite bind_ret. unfold ret at 1.
  change (1 <? 0) with false. change (-1 <? 0) with true. cbv iota.
  replace (Z.min 1 (Z.of_nat (List.length sv))) with 1 by lia.
  replace (0 + Z.to_nat 1)%nat with 1%nat by reflexivity.
  replace (Z.to_nat (Z.max 0 (-1 + Z.of_nat (List.length sv)) - 1))
    with (List.length sv - 2)%nat by lia.
  reflexivity.
Qed.

(** ** The strategies write to no existing array *)

Lemma alloc_extends : forall v s r s', alloc v s = (r, s') -> heap_extends s s'.
Proof.
  intros v s r s' H. rewrite alloc_eq in H. inversion H; subst.
  now exists [v].
Qed.

Lemma random_sampler_allocates_only : allocates_only random_sampler.
Proof.
  intros a k s r s'. unfold random_sampler, np_random_choice.
  repeat match goal with
         | |- context [if ?c then _ else _] => destruct c
         end; intros H;
    try (inversion H; subst; apply heap_extends_refl).
  eapply alloc_extends; exact H.
Qed.

Lemma all_sampler_allocates_only : allocates_only all_sampler.
Proof.
  intros a k s r s' H. inversion H; subst. apply heap_extends_refl.
Qed.

Lemma k_means_sampler_allocates_only : allocates_only k_means_sampler.
Proof.
  intros a k s r s'. unfold k_means_sampler.
  destruct (KMeans_fit k (contents s a)); intros H.
  - eapply alloc_extends; exact H.
  - inversion H; subst. apply heap_extends_refl.
Qed.

Lemma agglomerative_sampler_allocates_only : allocates_only agglomerative_sampler.
Proof.
  intros a k s r s'. unfold agglomerative_sampler.
  destruct (AgglomerativeClustering_fit k (contents s a)); intros H.
  - eapply alloc_extends; exact H.
  - inversion H; subst. apply heap_extends_refl.
Qed.

Lemma distance_sampler_allocates_only : allocates_only distance_sampler.
Proof.
  intros a k s r s' H. inversion H; subst. apply heap_extends_refl.
Qed.

Lemma fixed_sampler_allocates_only : allocates_only fixed_sampler.
Proof.
  intros a k s r s' H. eapply alloc_extends; exact H.
Qed.

Lemma sampler_from_name_cases : forall name m,
  sampler_from_name name = Ok m ->
  m = random_sampler \/ m = distance_sampler \/ m = k_means_sampler \/
  m = agglomerative_sampler \/ m = all_sampler.
Proof.
  intros name m. unfold sampler_from_name, registry. cbn [dict_get].
  repeat match goal with
         | |- context [if ?c then _ else _] => destruct c
         end; intros H; inversion H; subst; tauto.
Qed.

Lemma sampler_from_name_allocates_only : forall name m,
  sampler_from_name name = Ok m -> allocates_only m.
Proof.
  intros name m H.
  destruct (sampler_from_name_cases name m H) as [-> | [-> | [-> | [-> | ->]]]].
  - apply random_sampler_allocates_only.
  - apply distance_sampler_allocates_only.
  - apply k_means_sampler_allocates_only.
  - apply agglomerative_sampler_allocates_only.
  - apply all_sampler_allocates_only.
Qed.

Lemma strategy_of_allocates_only : forall method m,
  (forall f, method = MCallable f -> allocates_only f) ->
  strategy_of method = Ok m -> allocates_only m.
Proof.
  intros [|name|f] m Hf H; simpl in H.
  - eapply sampler_from_name_allocates_only; exact H.
  - eapply sampler_from_name_allocates_only; exact H.
  - inversion H; subst. now apply Hf.
Qed.

(** ** What a call does *)

Lemma tail_observe : forall (m : sampler) yi kk c s1,
  observe ((cc <- m yi kk ;; np_append c cc) s1)
  = match m yi kk s1 with
    | (Ok cc, s2) => (warned s2, Ok (contents s2 c ++ contents s2 cc))
    | (Raise e, s2) => (warned s2, Raise e)
    end.
Proof.
  intros m yi kk c s1. unfold bind.
  destruct (m yi kk s1) as [[cc | e] s2]; [|reflexivity].
  unfold np_append. rewrite alloc_eq. cbn [observe warned]. f_equal. f_equal.
  rewrite <- (app_nil_r (heap s2 ++ _)), <- app_assoc. cbn [app].
  apply contents_whole.
Qed.

Lemma tail_extends : forall (m : sampler) yi kk c s1 r s',
  allocates_only m ->
  (cc <- m yi kk ;; np_append c cc) s1 = (r, s') -> heap_extends s1 s'.
Proof.
  intros m yi kk c s1 r s' Hm. unfold bind.
  destruct (m yi kk s1) as [[cc | e] s2] eqn:E; intros H.
  - apply heap_extends_trans with s2; [eapply Hm; exact E|].
    unfold np_append in H. eapply alloc_extends; exact H.
  - inversion H; subst. eapply Hm; exact E.
Qed.

Lemma select_centers_extends : forall m y k keep_edges s r s',
  allocates_only m -> valid s y ->
  select_centers m y k keep_edges s = (r, s') -> heap_extends s s'.
Proof.
  intros m y k [|] s r s' Hm Hv H.
  - destruct (contents s y) as [|a v] eqn:Hc.
    + rewrite (select_centers_edges_empty m y k s Hv Hc) in H.
      inversion H; subst. now exists [[]; []].
    + rewrite select_centers_edges in H by (rewrite ?Hc; easy).
      apply tail_extends in H; [|exact Hm].
      eapply heap_extends_trans; [|exact H]. eexists; reflexivity.
  - rewrite select_centers_plain in H.
    apply tail_extends in H; [|exact Hm].
    eapply heap_extends_trans; [|exact H]. eexists; reflexivity.
Qed.

(** A call either gets past its deprecation notices or stops at one. *)
Lemma path_cases : forall g method k,
  bound g "warnings" = true
  \/ (k = 100 /\ is_callable method = true)
  \/ (bound g "warnings" = false
      /\ (k <> 100 \/ is_callable method = false)).
Proof.
  intros g method k.
  destruct (bound g "warnings"); [now left | right].
  destruct (Z.eq_dec k 100); [|right; split; [reflexivity | now left]].
  destruct (is_callable method); [left; now split|].
  right. split; [reflexivity | now right].
Qed.

Lemma sample_center_points_in_extends :
  forall g y method k keep_edges s r s',
    (forall f, method = MCallable f -> allocates_only f) ->
    valid s y ->
    sample_center_points_in g y method k keep_edges s = (r, s') ->
    heap_extends s s'.
Proof.
  intros g y method k keep_edges s r s' Hf Hv H.
  pose proof (path_cases g method k) as Hcases.
  destruct Hcases as [Hg | [Hk | [Hg Hdep]]].
  3: { rewrite deprecated_raises_NameError in H by assumption.
       inversion H; subst. apply heap_extends_refl. }
  all: rewrite sample_center_points_in_run in H by tauto;
    destruct (strategy_of method) as [m | e] eqn:Hm;
    [ apply select_centers_extends in H;
      [ destruct H as [new Hn]; exists new; exact Hn
      | eapply strategy_of_allocates_only; eassumption
      | exact Hv ]
    | inversion H; subst; exists []; cbn; now rewrite app_nil_r ].
Qed.

Lemma caller_contents : forall targets w,
  contents (mkState [targets] w) (caller_array targets) = targets.
Proof.
  intros targets w. unfold contents, caller_array. simpl.
  apply firstn_all.
Qed.

Lemma caller_valid : forall targets w,
  valid (mkState [targets] w) (caller_array targets).
Proof. intros targets w. unfold valid. simpl. lia. Qed.

Lemma call_in_run : forall g targets method k keep_edges,
  bound g "warnings" = true \/ (k = 100 /\ is_callable method = true) ->
  call_in g targets method k keep_edges
  = match strategy_of method with
    | Ok m => observe (select_centers m (caller_array targets) k keep_edges
                         (mkState [targets] (notices method k)))
    | Raise e => (notices method k, Raise e)
    end.
Proof.
  intros g targets method k keep_edges Hrun. unfold call_in.
  rewrite sample_center_points_in_run by exact Hrun.
  destruct (strategy_of method); reflexivity.
Qed.

(** A call that keeps no edges: the strategy runs on the caller's array
    with the count [k] as given. *)
Lemma call_in_plain : forall g targets method k m,
  bound g "warnings" = true \/ (k = 100 /\ is_callable method = true) ->
  strategy_of method = Ok m ->
  call_in g targets method k false
  = match m (caller_array targets) k
            (mkState [targets; []] (notices method k)) with
    | (Ok cc, s2) => (warned s2, Ok (contents s2 cc))
    | (Raise e, s2) => (warned s2, Raise e)
    end.
Proof.
  intros g targets method k m Hrun Hm.
  rewrite call_in_run by exact Hrun. rewrite Hm.
  rewrite select_centers_plain, tail_observe. reflexivity.
Qed.

(** A call that keeps the edges: the strategy runs on the interior of the
    sorted copy with the count [k - 2]; the two edges come first in the
    result. *)
Lemma call_in_edges : forall g targets method k m,
  bound g "warnings" = true \/ (k = 100 /\ is_callable method = true) ->
  strategy_of method = Ok m ->
  targets <> [] ->
  call_in g targets method k true
  = match m (mkArray 2 1 (List.length targets - 2)) (k - 2)
            (mkState [targets; []; ScalarSort.sort targets;
                      [minimum targets; maximum targets]]
                     (notices method k)) with
    | (Ok cc, s2) =>
        (warned s2, Ok (contents s2 (mkArray 3 0 2) ++ contents s2 cc))
    | (Raise e, s2) => (warned s2, Raise e)
    end.
Proof.
  intros g targets method k m Hrun Hm Hne.
  rewrite call_in_run by exact Hrun. rewrite Hm.
  rewrite select_centers_edges;
    [|apply caller_valid | now rewrite caller_contents].
  rewrite tail_observe. cbn [heap warned List.length app].
  rewrite caller_contents, sort_length.
  rewrite sort_first_minimum, <- (sort_length targets), sort_last_maximum
    by exact Hne.
  reflexivity.
Qed.

Lemma call_in_edges_empty : forall g method k m,
  bound g "warnings" = true \/ (k = 100 /\ is_callable method = true) ->
  strategy_of method = Ok m ->
  call_in g [] method k true = (notices method k, Raise IndexError).
Proof.
  intros g method k m Hrun Hm.
  rewrite call_in_run by exact Hrun. rewrite Hm.
  rewrite select_centers_edges_empty;
    [reflexivity | apply caller_valid | reflexivity].
Qed.

Lemma call_in_NameError : forall g targets method k keep_edges,
  bound g "warnings" = false ->
  k <> 100 \/ is_callable method = false ->
  call_in g targets method k keep_edges = ([], Raise (NameError "warnings")).
Proof.
  intros g targets method k keep_edges Hg Hdep. unfold call_in.
  now rewrite deprecated_raises_NameError.
Qed.

(** What can be said of a call that returns an array. *)
Lemma call_in_Ok_inv : forall g targets method k keep_edges w out,
  (forall f, method = MCallable f -> allocates_only f) ->
  call_in g targets method k keep_edges = (w, Ok out) ->
  exists m s1 yi cc s2,
    strategy_of method = Ok m /\
    m yi (if keep_edges then k - 2 else k) s1 = (Ok cc, s2) /\
    contents s1 yi = (if keep_edges then interior targets else targets) /\
    out = (if keep_edges then [minimum targets; maximum targets] else [])
          ++ contents s2 cc /\
    (keep_edges = true -> targets <> []).
Proof.
  intros g targets method k keep_edges w out Hf H.
  assert (Hrun : bound g "warnings" = true
                 \/ (k = 100 /\ is_callable method = true)).
  { destruct (path_cases g method k) as [Hg | [Hk | [Hg Hdep]]];
      [tauto | tauto |].
    rewrite call_in_NameError in H by assumption. discriminate. }
  destruct (strategy_of method) as [m | e] eqn:Hm;
    [| rewrite call_in_run, Hm in H by exact Hrun; discriminate ].
  pose proof (strategy_of_allocates_only method m Hf Hm) as Hall.
  destruct keep_edges.
  - destruct targets as [|a t];
      [ rewrite (call_in_edges_empty g method k m Hrun Hm) in H;
        discriminate |].
    rewrite (call_in_edges g (a :: t) method k m Hrun Hm) in H
      by discriminate.
    remember (mkState [a :: t; []; ScalarSort.sort (a :: t);
                       [minimum (a :: t); maximum (a :: t)]]
                      (notices method k)) as s1 eqn:Hs1.
    remember (mkArray 2 1 (List.length (a :: t) - 2)) as yi eqn:Hyi.
    destruct (m yi (k - 2) s1) as [[cc | e] s2] eqn:E; [|discriminate].
    exists m, s1, yi, cc, s2. inversion H; subst w out.
    repeat split; try assumption; try discriminate.
    + subst s1 yi. unfold contents, interior. simpl nth. cbn [start size].
      reflexivity.
    + f_equal. rewrite (contents_extends s1 s2);
        [subst s1; reflexivity | subst s1; unfold valid; simpl; lia
        | eapply Hall; exact E].
  - rewrite (call_in_plain g targets method k m Hrun Hm) in H.
    remember (mkState [targets; []] (notices method k)) as s1 eqn:Hs1.
    destruct (m (caller_array targets) k s1) as [[cc | e] s2] eqn:E;
      [|discriminate].
    exists m, s1, (caller_array targets), cc, s2. inversion H; subst w out.
    repeat split; try assumption; try discriminate.
    subst s1. unfold contents, caller_array. simpl. apply firstn_all.
Qed.

(** ** The deprecated paths in a module that imports [warnings] *)

Lemma random_sampler_warning_blind : warning_blind random_sampler.
Proof.
  intros a k h w w'. unfold random_sampler, np_random_choice, contents.
  cbn [heap].
  repeat match goal with
         | |- context [if ?c then _ else _] => destruct c
         end; split; reflexivity.
Qed.

Lemma all_sampler_warning_blind : warning_blind all_sampler.
Proof. intros a k h w w'. split; reflexivity. Qed.

Lemma k_means_sampler_warning_blind : warning_blind k_means_sampler.
Proof.
  intros a k h w w'. unfold k_means_sampler, contents. cbn [heap].
  destruct (KMeans_fit _ _); split; reflexivity.
Qed.

Lemma agglomerative_sampler_warning_blind : warning_blind agglomerative_sampler.
Proof.
  intros a k h w w'. unfold agglomerative_sampler, contents. cbn [heap].
  destruct (AgglomerativeClustering_fit _ _); split; reflexivity.
Qed.

Lemma distance_sampler_warning_blind : warning_blind distance_sampler.
Proof. intros a k h w w'. split; reflexivity. Qed.

Lemma fixed_sampler_warning_blind : warning_blind fixed_sampler.
Proof. intros a k h w w'. split; reflexivity. Qed.

Lemma sampler_from_name_warning_blind : forall name m,
  sampler_from_name name = Ok m -> warning_blind m.
Proof.
  intros name m H.
  destruct (sampler_from_name_cases name m H) as [-> | [-> | [-> | [-> | ->]]]].
  - apply random_sampler_warning_blind.
  - apply distance_sampler_warning_blind.
  - apply k_means_sampler_warning_blind.
  - apply agglomerative_sampler_warning_blind.
  - apply all_sampler_warning_blind.
Qed.

Lemma tail_warning_blind : forall (m : sampler) yi kk c h w w',
  warning_blind m ->
  observe ((cc <- m yi kk ;; np_append c cc) (mkState h w'))
  = (w', snd (observe ((cc <- m yi kk ;; np_append c cc) (mkState h w))))
  /\ fst (observe ((cc <- m yi kk ;; np_append c cc) (mkState h w))) = w.
Proof.
  intros m yi kk c h w w' Hm. rewrite !tail_observe.
  destruct (Hm yi kk h w w') as [E Hw]. rewrite E.
  destruct (m yi kk (mkState h w)) as [[cc | e] s2]; cbn [fst snd] in *;
    split; try reflexivity; exact Hw.
Qed.

(** With [warnings] among the globals, a call that names its strategy does
    what the call with the function itself does, the notice apart. *)
Lemma named_strategy_with_import : forall g targets method k keep_edges m,
  bound g "warnings" = true ->
  is_callable method = false ->
  strategy_of method = Ok m ->
  call_in g targets method k keep_edges
  = (notices method k,
     snd (call_in g targets (MCallable m) k keep_edges))
  /\ fst (call_in g targets (MCallable m) k keep_edges)
     = notices (MCallable m) k.
Proof.
  intros g targets method k keep_edges m Hg Hc Hm.
  assert (Hb : warning_blind m).
  { destruct method; simpl in Hc, Hm; try discriminate;
      eapply sampler_from_name_warning_blind; exact Hm. }
  rewrite !call_in_run by (now left). rewrite Hm. cbn [strategy_of].
  destruct keep_edges.
  - destruct targets as [|a t].
    + rewrite !select_centers_edges_empty
        by (try apply caller_valid; reflexivity).
      split; reflexivity.
    + rewrite !select_centers_edges
        by (try apply caller_valid; rewrite caller_contents; discriminate).
      cbn [heap warned]. now apply tail_warning_blind.
  - rewrite !select_centers_plain. cbn [heap warned].
    now apply tail_warning_blind.
Qed.

(** ** The strategies that return exactly [k] centers *)

Section LibraryContracts.

(** What the libraries guarantee:
    - [permutation(n)] is a permutation of [0 .. n-1], whatever the state of
      the generator;
    - [cluster_centers_] has one row per cluster;
    - [labels_] uses exactly [n_clusters] labels. *)
Hypothesis rng_permutation_spec :
  forall n, Permutation (rng_permutation n) (seq 0 n).
Hypothesis KMeans_fit_shape :
  forall k v centers,
    KMeans_fit k v = Ok centers -> Z.of_nat (List.length centers) = k.
Hypothesis AgglomerativeClustering_fit_labels :
  forall k v labels,
    AgglomerativeClustering_fit k v = Ok labels ->
    Z.of_nat (List.length (nodup Nat.eq_dec labels)) = k.

Lemma rng_permutation_length : forall n, List.length (rng_permutation n) = n.
Proof.
  intros n. rewrite (Permutation_length (rng_permutation_spec n)).
  apply length_seq.
Qed.

Lemma rng_permutation_NoDup : forall n, NoDup (rng_permutation n).
Proof.
  intros n. apply (Permutation_NoDup (Permutation_sym (rng_permutation_spec n))).
  apply seq_NoDup.
Qed.

Lemma rng_permutation_range : forall n i,
  In i (rng_permutation n) -> (i < n)%nat.
Proof.
  intros n i Hin.
  apply (Permutation_in _ (rng_permutation_spec n)), in_seq in Hin. lia.
Qed.

Lemma firstn_In : forall {A} n (l : list A) x, In x (firstn n l) -> In x l.
Proof.
  intros A n l x Hin. rewrite <- (firstn_skipn n l). apply in_or_app. now left.
Qed.

Lemma firstn_NoDup : forall {A} n (l : list A), NoDup l -> NoDup (firstn n l).
Proof.
  intros A n l Hnd. rewrite <- (firstn_skipn n l) in Hnd.
  eapply NoDup_app_remove_r. exact Hnd.
Qed.

Lemma alloc_contents : forall v s r s',
  alloc v s = (Ok r, s') -> contents s' r = v.
Proof.
  intros v s r s' H. rewrite alloc_eq in H. inversion H; subst.
  cbn [heap]. apply contents_whole.
Qed.

(** The accepted case of [np.random.choice]. *)
Lemma np_random_choice_accepts : forall y k s,
  0 <= k <= Z.of_nat (List.length (contents s y)) ->
  np_random_choice y k s
  = alloc (map (fun i => nth i (contents s y) 0)
             (firstn (Z.to_nat k) (rng_permutation (List.length (contents s y)))))
      s.
Proof.
  intros y k s Hk. unfold np_random_choice.
  assert (H1 : (Z.of_nat (List.length (contents s y)) =? 0) && negb (k =? 0)
               = false).
  { apply andb_false_iff.
    destruct (Z.eq_dec k 0) as [-> | Hk0]; [now right | left].
    apply Z.eqb_neq. lia. }
  assert (H2 : (k >? Z.of_nat (List.length (contents s y))) = false)
    by (rewrite Z.gtb_ltb; apply Z.ltb_ge; lia).
  assert (H3 : (k <? 0) = false) by (apply Z.ltb_ge; lia).
  now rewrite H1, H2, H3.
Qed.

(** The rejected cases. *)
Lemma np_random_choice_rejects : forall y k s,
  k < 0 \/ Z.of_nat (List.length (contents s y)) < k ->
  exists msg, np_random_choice y k s = (Raise (ValueError msg), s).
Proof.
  intros y k s Hk. unfold np_random_choice.
  destruct ((Z.of_nat (List.length (contents s y)) =? 0) && negb (k =? 0));
    [eexists; reflexivity|].
  destruct (k >? Z.of_nat (List.length (contents s y))) eqn:H2;
    [eexists; reflexivity|].
  destruct (k <? 0) eqn:H3; [eexists; reflexivity|].
  rewrite Z.gtb_ltb in H2. apply Z.ltb_ge in H2, H3. lia.
Qed.

Lemma random_sampler_returns_exactly_k : returns_exactly_k random_sampler.
Proof.
  intros a k s r s' H. unfold random_sampler in H.
  destruct (Z_lt_dec k 0) as [Hneg | Hpos].
  { destruct (np_random_choice_rejects a k s (or_introl Hneg)) as [msg E].
    rewrite E in H. discriminate. }
  destruct (Z_lt_dec (Z.of_nat (List.length (contents s a))) k) as [Hbig | Hle].
  { destruct (np_random_choice_rejects a k s (or_intror Hbig)) as [msg E].
    rewrite E in H. discriminate. }
  rewrite np_random_choice_accepts in H by lia.
  rewrite (alloc_contents _ _ _ _ H), length_map, length_firstn.
  rewrite rng_permutation_length. lia.
Qed.

Lemma k_means_sampler_returns_exactly_k : returns_exactly_k k_means_sampler.
Proof.
  intros a k s r s' H. unfold k_means_sampler in H.
  destruct (KMeans_fit k (contents s a)) as [centers | e] eqn:E;
    [|discriminate].
  rewrite (alloc_contents _ _ _ _ H). eapply KMeans_fit_shape. exact E.
Qed.

Lemma agglomerative_sampler_returns_exactly_k :
  returns_exactly_k agglomerative_sampler.
Proof.
  intros a k s r s' H. unfold agglomerative_sampler in H.
  destruct (AgglomerativeClustering_fit k (contents s a)) as [labels | e] eqn:E;
    [|discriminate].
  rewrite (alloc_contents _ _ _ _ H). unfold group_means.
  rewrite length_map, <- (Permutation_length (NatSort.Permuted_sort _)).
  eapply AgglomerativeClustering_fit_labels. exact E.
Qed.

Lemma distance_sampler_returns_exactly_k : returns_exactly_k distance_sampler.
Proof. intros a k s r s' H. discriminate. Qed.

(** X14. With a count the input can serve, a call with the random strategy
    that gets past its deprecation notices does return, and returns [k]
    centers. *)
Lemma random_call_returns : forall g targets k (keep_edges : bool),
  bound g "warnings" = true \/ k = 100 ->
  (if keep_edges then 2 else 0) <= k <= Z.of_nat (List.length targets) ->
  exists w out,
    call_in g targets (MCallable random_sampler) k keep_edges = (w, Ok out)
    /\ Z.of_nat (List.length out) = k.
Proof.
  intros g targets k keep_edges Hg Hk.
  assert (Hrun : bound g "warnings" = true
                 \/ (k = 100 /\ is_callable (MCallable random_sampler) = true))
    by (destruct Hg; [now left | right; now split]).
  destruct keep_edges.
  - assert (Hne : targets <> [])
      by (intros ->; simpl in Hk; lia).
    rewrite (call_in_edges g targets _ k random_sampler Hrun eq_refl Hne).
    set (s1 := mkState [targets; []; ScalarSort.sort targets;
                        [minimum targets; maximum targets]] _).
    set (yi := mkArray 2 1 (List.length targets - 2)).
    assert (Hyi : List.length (contents s1 yi) = (List.length targets - 2)%nat).
    { unfold contents, s1, yi. simpl nth. cbn [start size].
      rewrite length_firstn, length_skipn, sort_length. lia. }
    destruct (random_sampler yi (k - 2) s1) as [[cc | e] s2] eqn:E.
    + exists (warned s2), (contents s2 (mkArray 3 0 2) ++ contents s2 cc).
      split; [reflexivity|].
      pose proof (random_sampler_allocates_only _ _ _ _ _ E) as Hext.
      pose proof (random_sampler_returns_exactly_k _ _ _ _ _ E) as Hlen.
      rewrite (contents_extends s1 s2) by (assumption || (unfold valid; simpl; lia)).
      rewrite length_app. change (contents s1 (mkArray 3 0 2))
        with [minimum targets; maximum targets]. simpl List.length. lia.
    + exfalso. unfold random_sampler in E.
      rewrite np_random_choice_accepts in E by (rewrite Hyi; lia).
      rewrite alloc_eq in E. discriminate.
  - rewrite (call_in_plain g targets _ k random_sampler Hrun eq_refl).
    set (s1 := mkState _ _).
    assert (Hy : contents s1 (caller_array targets) = targets)
      by (unfold contents, s1, caller_array; simpl; apply firstn_all).
    destruct (random_sampler (caller_array targets) k s1) as [[cc | e] s2] eqn:E.
    + exists (warned s2), (contents s2 cc). split; [reflexivity|].
      exact (random_sampler_returns_exactly_k _ _ _ _ _ E).
    + exfalso. unfold random_sampler in E.
      rewrite np_random_choice_accepts in E by (rewrite Hy; lia).
      rewrite alloc_eq in E. discriminate.
Qed.

(** C7. For every input array and every [0 < k <= len(values)] the random
    strategy returns [k] values drawn without replacement, whatever the
    generator produces: the positions drawn are pairwise distinct positions
    of the input and every returned value is an element of the input.  For
    every [k > len(values)] it fails with [numpy]'s [ValueError], the
    module's sampling error, and the store is left as it was. *)
Theorem random_sampler_without_replacement : forall y k s,
  0 < k ->
  (k <= Z.of_nat (List.length (contents s y)) ->
   exists idx r s',
     random_sampler y k s = (Ok r, s') /\
     contents s' r = map (fun i => nth i (contents s y) 0) idx /\
     Z.of_nat (List.length idx) = k /\
     NoDup idx /\
     (forall i, In i idx -> (i < List.length (contents s y))%nat) /\
     (forall x, In x (contents s' r) -> In x (contents s y)))
  /\
  (Z.of_nat (List.length (contents s y)) < k ->
   exists e,
     random_sampler y k s = (Raise e, s) /\ realises SamplingError e = true).
Proof.
  intros y k s Hk. split.
  - intros Hle.
    set (v := contents s y) in *.
    set (idx := firstn (Z.to_nat k) (rng_permutation (List.length v))).
    assert (Hrange : forall i, In i idx -> (i < List.length v)%nat).
    { intros i Hin. apply firstn_In in Hin.
      now apply rng_permutation_range in Hin. }
    destruct (alloc (map (fun i => nth i v 0) idx) s) as [r s'] eqn:E.
    assert (Er : exists a, r = Ok a) by
      (rewrite alloc_eq in E; inversion E; eauto).
    destruct Er as [a ->].
    exists idx, a, s'. unfold random_sampler.
    rewrite np_random_choice_accepts by (fold v; lia). fold v. fold idx.
    pose proof (alloc_contents _ _ _ _ E) as Hc.
    repeat split.
    + exact E.
    + exact Hc.
    + unfold idx. rewrite length_firstn, rng_permutation_length. lia.
    + apply firstn_NoDup, rng_permutation_NoDup.
    + exact Hrange.
    + intros x Hx. rewrite Hc in Hx. apply in_map_iff in Hx.
      destruct Hx as [i [<- Hi]]. apply nth_In. now apply Hrange.
  - intros Hgt. unfold random_sampler.
    destruct (np_random_choice_rejects y k s (or_intror Hgt)) as [msg E].
    exists (ValueError msg). now split.
Qed.

Lemma map_nth_seq : forall (v : list scalar),
  map (fun i => nth i v 0) (seq 0 (List.length v)) = v.
Proof.
  induction v as [|a v IH]; [reflexivity|].
  cbn [List.length seq map nth]. f_equal.
  rewrite <- seq_shift, map_map. exact IH.
Qed.

(** X1. Asked for as many values as the input holds, the random strategy
    returns the whole input, reordered: every occurrence of every value
    exactly once. *)
Theorem random_sampler_of_everything_is_a_permutation : forall y s,
  contents s y <> [] ->
  exists r s',
    random_sampler y (Z.of_nat (List.length (contents s y))) s = (Ok r, s')
    /\ Permutation (contents s' r) (contents s y).
Proof.
  intros y s Hne. set (v := contents s y) in *.
  destruct (alloc (map (fun i => nth i v 0)
                     (firstn (Z.to_nat (Z.of_nat (List.length v)))
                        (rng_permutation (List.length v)))) s)
    as [r s'] eqn:E.
  assert (Er : exists a, r = Ok a)
    by (rewrite alloc_eq in E; inversion E; eauto).
  destruct Er as [a ->]. exists a, s'. unfold random_sampler.
  rewrite np_random_choice_accepts by (fold v; lia). fold v.
  split; [exact E|].
  rewrite (alloc_contents _ _ _ _ E), Nat2Z.id.
  rewrite <- (rng_permutation_length (List.length v)) at 1.
  rewrite firstn_all.
  apply Permutation_trans
    with (map (fun i => nth i v 0) (seq 0 (List.length v)));
    [apply Permutation_map, rng_permutation_spec|].
  now rewrite map_nth_seq.
Qed.

End LibraryContracts.

(** ** The claims about [sample_center_points] *)

(** C1 (the module does not do what the claim says).  In the module as
    written every call through a deprecated parameter path, a count other
    than the default 100, a strategy given by name or no strategy at all,
    stops at the statement that should emit the notice: [warnings] is not
    among the module's global names, so [NameError] is raised, no notice
    is emitted and no array is returned. *)
Theorem deprecated_paths_raise_NameError :
  forall targets method k keep_edges,
    k <> 100 \/ is_callable method = false ->
    call targets method k keep_edges = ([], Raise (NameError "warnings")).
Proof.
  intros targets method k keep_edges Hdep. unfold call.
  apply call_in_NameError; [reflexivity | exact Hdep].
Qed.

(** C2. For every non-empty targets array and every strategy that writes to
    no existing array, when [keep_edges] is true the minimum and the maximum
    of the input are both elements of the array the call returns.  This
    holds whatever the module's global names are, hence for the module as
    written. *)
Theorem keep_edges_keeps_minimum_and_maximum :
  forall g targets method k w out,
    targets <> [] ->
    (forall f, method = MCallable f -> allocates_only f) ->
    call_in g targets method k true = (w, Ok out) ->
    In (minimum targets) out /\ In (maximum targets) out.
Proof.
  intros g targets method k w out Hne Hf H.
  destruct (call_in_Ok_inv _ _ _ _ _ _ _ Hf H)
    as (m & s1 & yi & cc & s2 & _ & _ & _ & -> & _).
  split; [left; reflexivity | right; left; reflexivity].
Qed.

(** A strategy that returns exactly the count it is given makes the call
    return exactly [k] centers: its [k] centers when [keep_edges] is false,
    its [k - 2] centers and the two edges when it is true. *)
Lemma exact_count_gives_k_centers :
  forall g targets method k keep_edges w out m,
    strategy_of method = Ok m ->
    allocates_only m ->
    returns_exactly_k m ->
    call_in g targets method k keep_edges = (w, Ok out) ->
    Z.of_nat (List.length out) = k.
Proof.
  intros g targets method k keep_edges w out m Hm Hall Hk H.
  assert (Hf : forall f, method = MCallable f -> allocates_only f).
  { intros f ->. simpl in Hm. now inversion Hm; subst. }
  destruct (call_in_Ok_inv _ _ _ _ _ _ _ Hf H)
    as (m' & s1 & yi & cc & s2 & Hm' & E & _ & -> & _).
  rewrite Hm in Hm'. inversion Hm'; subst m'.
  apply Hk in E. rewrite length_app.
  destruct keep_edges; simpl List.length; lia.
Qed.

Section NamedStrategies.

(** The contracts of [numpy] and [sklearn], as above. *)
Hypothesis rng_permutation_spec :
  forall n, Permutation (rng_permutation n) (seq 0 n).
Hypothesis KMeans_fit_shape :
  forall k v centers,
    KMeans_fit k v = Ok centers -> Z.of_nat (List.length centers) = k.
Hypothesis AgglomerativeClustering_fit_labels :
  forall k v labels,
    AgglomerativeClustering_fit k v = Ok labels ->
    Z.of_nat (List.length (nodup Nat.eq_dec labels)) = k.

(** C3. For every strategy other than identity and fixed, that is
    [random_sampler], [k_means_sampler], [agglomerative_sampler] and
    [distance_sampler] (which returns nothing), given as a function or by its
    name, the array a call returns has exactly [k] elements: the [k] values
    [np.random.choice] draws, the [k] rows of [cluster_centers_] or the
    means of the [k] groups of labels when [keep_edges] is false; [k - 2] of
    them after the two edges when it is true. *)
Theorem returned_centers_have_length_k :
  forall g targets method k keep_edges w out m,
    strategy_of method = Ok m ->
    m = random_sampler \/ m = k_means_sampler
    \/ m = agglomerative_sampler \/ m = distance_sampler ->
    call_in g targets method k keep_edges = (w, Ok out) ->
    Z.of_nat (List.length out) = k.
Proof.
  intros g targets method k keep_edges w out m Hm Hcases H.
  destruct Hcases as [-> | [-> | [-> | ->]]].
  - eapply exact_count_gives_k_centers; try eassumption.
    + apply random_sampler_allocates_only.
    + apply random_sampler_returns_exactly_k, rng_permutation_spec.
  - eapply exact_count_gives_k_centers; try eassumption.
    + apply k_means_sampler_allocates_only.
    + apply k_means_sampler_returns_exactly_k, KMeans_fit_shape.
  - eapply exact_count_gives_k_centers; try eassumption.
    + apply agglomerative_sampler_allocates_only.
    + apply agglomerative_sampler_returns_exactly_k,
        AgglomerativeClustering_fit_labels.
  - eapply exact_count_gives_k_centers; try eassumption.
    + apply distance_sampler_allocates_only.
    + apply distance_sampler_returns_exactly_k.
Qed.

End NamedStrategies.

(** C9. [sample_center_points] never writes to the caller's targets array:
    for every strategy that writes to no existing array and every [k] and
    [keep_edges], whether the call returns or raises, the targets array
    holds the same elements in the same order afterwards, and so does every
    buffer that existed before the call. *)
Theorem sample_center_points_leaves_targets_unchanged :
  forall g y method k keep_edges s r s',
    (forall f, method = MCallable f -> allocates_only f) ->
    valid s y ->
    sample_center_points_in g y method k keep_edges s = (r, s') ->
    contents s' y = contents s y /\
    firstn (List.length (heap s)) (heap s') = heap s.
Proof.
  intros g y method k keep_edges s r s' Hf Hv H.
  pose proof (sample_center_points_in_extends _ _ _ _ _ _ _ _ Hf Hv H) as He.
  split; [now apply contents_extends|].
  destruct He as [new ->].
  rewrite firstn_app, Nat.sub_diag, firstn_all. simpl. apply app_nil_r.
Qed.

(** C10. When [keep_edges] is true and the call gets past its deprecation
    notices, the strategy is run on the interior of the sorted copy, which
    is the input less one occurrence of its minimum and one occurrence of
    its maximum: an extreme value that occurs several times stays in the
    interior.  For a one-element input both edges are that element and the
    interior is empty. *)
Theorem edge_trimming_removes_one_minimum_and_one_maximum :
  forall g targets method k m,
    bound g "warnings" = true \/ (k = 100 /\ is_callable method = true) ->
    strategy_of method = Ok m ->
    targets <> [] ->
    let s1 := mkState [targets; []; ScalarSort.sort targets;
                       [minimum targets; maximum targets]]
                      (notices method k) in
    let yi := mkArray 2 1 (List.length targets - 2) in
    let edges := mkArray 3 0 2 in
    call_in g targets method k true
    = match m yi (k - 2) s1 with
      | (Ok cc, s2) => (warned s2, Ok (contents s2 edges ++ contents s2 cc))
      | (Raise e, s2) => (warned s2, Raise e)
      end
    /\ contents s1 edges = [minimum targets; maximum targets]
    /\ contents s1 yi = interior targets
    /\ ((2 <= List.length targets)%nat ->
        forall x,
          count_occ Z.eq_dec targets x
          = (count_occ Z.eq_dec (interior targets) x
             + (if Z.eq_dec (minimum targets) x then 1 else 0)
             + (if Z.eq_dec (maximum targets) x then 1 else 0))%nat)
    /\ (forall x, targets = [x] ->
        minimum targets = x /\ maximum targets = x /\ interior targets = []).
Proof.
  intros g targets method k m Hrun Hm Hne s1 yi edges.
  split; [now apply call_in_edges|].
  split; [reflexivity|].
  split; [reflexivity|].
  split.
  - intros Hl x.
    rewrite (proj1 (Permutation_count_occ Z.eq_dec _ _)
               (interior_permutation targets Hl) x).
    cbn [count_occ]. rewrite count_occ_app. cbn [count_occ].
    destruct (Z.eq_dec (minimum targets) x);
      destruct (Z.eq_dec (maximum targets) x);
      rewrite ?Nat.add_0_r, ?Nat.add_1_r; reflexivity.
  - intros x ->. repeat split; try reflexivity.
    unfold minimum. simpl. lia.
    unfold maximum. simpl. lia.
Qed.

(** C4, as the module has it.  With [keep_edges] true and [k < 2] nothing
    checks [k]: a call that gets past its deprecation notices reserves the
    two edges and runs the strategy with the count [k - 2], which is zero
    or negative, and the outcome of the call is that of the strategy.  With
    the identity strategy the call returns the two edges followed by the
    interior. *)
Theorem keep_edges_small_k_is_not_checked :
  forall g targets method k m,
    bound g "warnings" = true ->
    strategy_of method = Ok m ->
    targets <> [] ->
    k < 2 ->
    call_in g targets method k true
    = match m (mkArray 2 1 (List.length targets - 2)) (k - 2)
              (mkState [targets; []; ScalarSort.sort targets;
                        [minimum targets; maximum targets]]
                       (notices method k)) with
      | (Ok cc, s2) =>
          (warned s2, Ok (contents s2 (mkArray 3 0 2) ++ contents s2 cc))
      | (Raise e, s2) => (warned s2, Raise e)
      end
    /\ call_in g targets (MCallable all_sampler) k true
       = (notices (MCallable all_sampler) k,
          Ok (minimum targets :: maximum targets :: interior targets)).
Proof.
  intros g targets method k m Hg Hm Hne Hk. split.
  - apply call_in_edges; [now left | exact Hm | exact Hne].
  - rewrite (call_in_edges g targets (MCallable all_sampler) k all_sampler);
      [reflexivity | now left | reflexivity | exact Hne].
Qed.

(** C5, as the module has it.  Nothing checks that [k] is positive: with
    [k <= 0] a call that gets past its deprecation notices runs the strategy
    with the count it was given ([k], or [k - 2] when [keep_edges] is true)
    and the outcome of the call is that of the strategy.  With the identity
    strategy the call returns the targets. *)
Theorem nonpositive_k_is_not_checked :
  forall g targets method k m,
    bound g "warnings" = true ->
    strategy_of method = Ok m ->
    k <= 0 ->
    call_in g targets method k false
    = match m (caller_array targets) k
              (mkState [targets; []] (notices method k)) with
      | (Ok cc, s2) => (warned s2, Ok (contents s2 cc))
      | (Raise e, s2) => (warned s2, Raise e)
      end
    /\ (targets <> [] ->
        call_in g targets method k true
        = match m (mkArray 2 1 (List.length targets - 2)) (k - 2)
                  (mkState [targets; []; ScalarSort.sort targets;
                            [minimum targets; maximum targets]]
                           (notices method k)) with
          | (Ok cc, s2) =>
              (warned s2, Ok (contents s2 (mkArray 3 0 2) ++ contents s2 cc))
          | (Raise e, s2) => (warned s2, Raise e)
          end)
    /\ call_in g targets (MCallable all_sampler) k false
       = (notices (MCallable all_sampler) k, Ok targets).
Proof.
  intros g targets method k m Hg Hm Hk. split; [|split].
  - apply call_in_plain; [now left | exact Hm].
  - intros Hne. apply call_in_edges; [now left | exact Hm | exact Hne].
  - rewrite (call_in_plain g targets (MCallable all_sampler) k all_sampler);
      [|now left | reflexivity].
    unfold all_sampler, ret. cbn [warned]. f_equal. f_equal.
    unfold contents, caller_array. simpl. apply firstn_all.
Qed.

(** C6 (the module does not do what the claim says).  For a name that is
    not registered the lookup [sampler_from_name] does raise [ValueError]
    with the message "unknown method <name>"; a call of
    [sample_center_points] with that name never reaches the lookup: it
    raises [NameError] at the deprecation notice before it. *)
Theorem unknown_name_lookup_is_not_reached :
  forall name,
    ~ In name ["random"; "distance"; "k_means"; "agglomerative"] ->
    sampler_from_name (Some name)
    = Raise (ValueError ("unknown method " ++ name))
    /\ forall targets k keep_edges,
         call targets (MStr name) k keep_edges
         = ([], Raise (NameError "warnings")).
Proof.
  intros name Hn. split.
  - unfold sampler_from_name, registry. cbn [dict_get name_eqb].
    repeat match goal with
           | |- context [String.eqb name ?s] =>
               destruct (String.eqb_spec name s) as [-> | _];
               [exfalso; apply Hn; simpl; tauto|]
           end.
    reflexivity.
  - intros targets k keep_edges.
    unfold call. apply call_in_NameError; [reflexivity | now right].
Qed.

(** C8. The distance strategy raises [NotImplementedError] for every input
    array and every [k] and changes nothing; no call of
    [sample_center_points] with it returns a value. *)
Theorem distance_sampler_raises_NotImplementedError :
  (forall y k s, distance_sampler y k s = (Raise NotImplementedError, s))
  /\ realises NotImplemented NotImplementedError = true
  /\ (forall g targets k keep_edges w out,
        call_in g targets (MCallable distance_sampler) k keep_edges
        <> (w, Ok out)).
Proof.
  split; [reflexivity|]. split; [reflexivity|].
  intros g targets k keep_edges w out H.
  assert (Hf : forall f, MCallable distance_sampler = MCallable f ->
                         allocates_only f).
  { intros f Heq. inversion Heq; subst. apply distance_sampler_allocates_only. }
  destruct (call_in_Ok_inv _ _ _ _ _ _ _ Hf H)
    as (m & s1 & yi & cc & s2 & Hm & E & _).
  simpl in Hm. inversion Hm; subst m. discriminate.
Qed.

(** ** Further properties of the sampler *)

Lemma name_eqb_eq : forall a b, name_eqb a b = true <-> a = b.
Proof.
  intros [x|] [y|]; simpl; split; intros H; try discriminate; try reflexivity.
  - apply String.eqb_eq in H. now subst.
  - inversion H; subst. apply String.eqb_refl.
Qed.

Lemma dict_get_In : forall {V} (d : list (option string * V)) key v,
  dict_get d key = Some v -> In (key, v) d.
Proof.
  induction d as [|[k' v'] d IH]; intros key v H; simpl in H; [discriminate|].
  destruct (name_eqb key k') eqn:E.
  - apply name_eqb_eq in E. inversion H; subst. now left.
  - right. now apply IH.
Qed.

(** X2. What each name resolves to: [None] to [all_sampler], 'random' to
    [random_sampler], 'distance' to [distance_sampler], 'k_means' to
    [k_means_sampler], 'agglomerative' to [agglomerative_sampler]; every
    other string, 'fixed', 'all' or a registered name in another case
    among them, raises [ValueError] with "unknown method" and the name.  So
    [fixed_sampler] cannot be chosen by name, and the identity strategy only
    by leaving the name out. *)
Theorem sampler_from_name_registered :
  sampler_from_name None = Ok all_sampler
  /\ sampler_from_name (Some "random") = Ok random_sampler
  /\ sampler_from_name (Some "distance") = Ok distance_sampler
  /\ sampler_from_name (Some "k_means") = Ok k_means_sampler
  /\ sampler_from_name (Some "agglomerative") = Ok agglomerative_sampler
  /\ (forall name,
        name <> "random" -> name <> "distance" -> name <> "k_means" ->
        name <> "agglomerative" ->
        sampler_from_name (Some name)
        = Raise (ValueError ("unknown method " ++ name)))
  /\ (forall name f,
        sampler_from_name name = Ok f ->
        (name = None /\ f = all_sampler)
        \/ (name = Some "random" /\ f = random_sampler)
        \/ (name = Some "distance" /\ f = distance_sampler)
        \/ (name = Some "k_means" /\ f = k_means_sampler)
        \/ (name = Some "agglomerative" /\ f = agglomerative_sampler)).
Proof.
  repeat (split; [reflexivity|]). split.
  - intros name H1 H2 H3 H4.
    unfold sampler_from_name, registry. cbn [dict_get name_eqb].
    apply String.eqb_neq in H1, H2, H3, H4. now rewrite H1, H2, H3, H4.
  - intros name f H. unfold sampler_from_name in H.
    destruct (dict_get registry name) as [f'|] eqn:E; [|discriminate].
    inversion H; subst f'. clear H.
    apply dict_get_In in E. unfold registry in E. simpl in E.
    destruct E as [E | [E | [E | [E | [E | []]]]]]; inversion E; subst; tauto.
Qed.

(** X3. An empty targets array: with [keep_edges] the call raises
    [IndexError] at [y[0]] and the strategy is not run, whichever it is;
    without [keep_edges] the empty array goes to the strategy, and the
    outcome is the strategy's. *)
Theorem empty_targets : forall g method k m,
  bound g "warnings" = true \/ (k = 100 /\ is_callable method = true) ->
  strategy_of method = Ok m ->
  call_in g [] method k true = (notices method k, Raise IndexError)
  /\ call_in g [] method k false
     = match m (caller_array []) k
               (mkState [[]; []] (notices method k)) with
       | (Ok cc, s2) => (warned s2, Ok (contents s2 cc))
       | (Raise e, s2) => (warned s2, Raise e)
       end.
Proof.
  intros g method k m Hrun Hm. split.
  - now apply (call_in_edges_empty g method k m).
  - now apply call_in_plain.
Qed.

(** X4. Where an exception of a call can come from: the deprecation notice
    ([NameError], when [warnings] is not a global name), the lookup of an
    unregistered name ([ValueError]), [y[0]] on an empty array with
    [keep_edges] ([IndexError]), or the strategy, whose exception the call
    passes on unchanged. *)
Theorem exceptions_of_a_call :
  forall g targets method k (keep_edges : bool) w e,
    call_in g targets method k keep_edges = (w, Raise e) ->
    (e = NameError "warnings" /\ bound g "warnings" = false
     /\ (k <> 100 \/ is_callable method = false))
    \/ (exists name,
          method = MStr name /\ e = ValueError ("unknown method " ++ name)
          /\ sampler_from_name (Some name) = Raise e)
    \/ (e = IndexError /\ keep_edges = true /\ targets = [])
    \/ (exists m yi s1 s2,
          strategy_of method = Ok m
          /\ m yi (if keep_edges then k - 2 else k) s1 = (Raise e, s2)
          /\ contents s1 yi
             = (if keep_edges then interior targets else targets)).
Proof.
  intros g targets method k keep_edges w e H.
  destruct (path_cases g method k) as [Hg | [Hk | [Hg Hdep]]].
  3: { rewrite call_in_NameError in H by assumption.
       inversion H; subst. left. tauto. }
  all: assert (Hrun : bound g "warnings" = true
                      \/ (k = 100 /\ is_callable method = true)) by tauto;
    clear Hg || clear Hk.
  all: destruct (strategy_of method) as [m | e'] eqn:Hm.
  all: try (rewrite call_in_run, Hm in H by exact Hrun;
            inversion H; subst; right; left;
            destruct method as [|name|f]; simpl in Hm;
            [ discriminate
            | exists name; unfold sampler_from_name in *;
              destruct (dict_get registry (Some name)); [discriminate|];
              inversion Hm; subst; repeat split; reflexivity
            | discriminate ]).
  all: right; right; destruct keep_edges.
  all: try (destruct targets as [|a t];
            [ rewrite (call_in_edges_empty g method k m Hrun Hm) in H;
              inversion H; subst; left; tauto |];
            right;
            rewrite (call_in_edges g (a :: t) method k m Hrun Hm) in H
              by discriminate;
            remember (mkState [a :: t; []; ScalarSort.sort (a :: t);
                               [minimum (a :: t); maximum (a :: t)]]
                              (notices method k)) as s1 eqn:Hs1;
            remember (mkArray 2 1 (List.length (a :: t) - 2)) as yi eqn:Hyi;
            destruct (m yi (k - 2) s1) as [[cc | e0] s2] eqn:E;
            [discriminate|]; inversion H; subst w e0;
            exists m, yi, s1, s2; repeat split; try assumption;
            subst s1 yi; reflexivity).
  all: right;
    rewrite (call_in_plain g targets method k m Hrun Hm) in H;
    remember (mkState [targets; []] (notices method k)) as s1 eqn:Hs1;
    destruct (m (caller_array targets) k s1) as [[cc | e0] s2] eqn:E;
    [discriminate|]; inversion H; subst w e0;
    exists m, (caller_array targets), s1, s2; repeat split; try assumption;
    subst s1; unfold contents, caller_array; simpl; apply firstn_all.
Qed.

Lemma sorted_app : forall (l1 l2 : list scalar),
  StronglySorted (fun x y => x <= y) (l1 ++ l2) ->
  StronglySorted (fun x y => x <= y) l1
  /\ StronglySorted (fun x y => x <= y) l2.
Proof.
  induction l1 as [|a l1 IH]; intros l2 H; simpl in H.
  - split; [constructor | exact H].
  - inversion H as [|? ? Hs Hall]; subst. destruct (IH l2 Hs) as [H1 H2].
    split; [|exact H2]. constructor; [exact H1|].
    apply Forall_app in Hall. tauto.
Qed.

Lemma skipn_In : forall {A} n (l : list A) x, In x (skipn n l) -> In x l.
Proof.
  intros A n l x Hin. rewrite <- (firstn_skipn n l). apply in_or_app. now right.
Qed.

Lemma interior_sorted : forall v,
  StronglySorted (fun x y => x <= y) (interior v).
Proof.
  intros v. unfold interior.
  pose proof (sort_sorted v) as Hs.
  rewrite <- (firstn_skipn 1 (ScalarSort.sort v)) in Hs.
  apply sorted_app in Hs. destruct Hs as [_ Hs].
  rewrite <- (firstn_skipn (List.length v - 2) (skipn 1 (ScalarSort.sort v)))
    in Hs.
  apply sorted_app in Hs. tauto.
Qed.

Lemma interior_In : forall v x, In x (interior v) -> In x v.
Proof.
  intros v x H. unfold interior in H.
  apply firstn_In, skipn_In in H. now apply sort_In.
Qed.

Lemma interior_length : forall v,
  List.length (interior v) = (List.length v - 2)%nat.
Proof.
  intros v. unfold interior.
  rewrite length_firstn, length_skipn, sort_length. lia.
Qed.

(** X5. What a call with [keep_edges] returns: the minimum, then the
    maximum, then the centers of the strategy, in this order.  The strategy
    was given the count [k - 2] and an array in ascending order that holds
    [len(y) - 2] values of the input, each between the two edges. *)
Theorem keep_edges_layout : forall g targets method k w out,
  (forall f, method = MCallable f -> allocates_only f) ->
  call_in g targets method k true = (w, Ok out) ->
  exists m s1 yi cc s2,
    strategy_of method = Ok m
    /\ m yi (k - 2) s1 = (Ok cc, s2)
    /\ out = minimum targets :: maximum targets :: contents s2 cc
    /\ StronglySorted (fun x y => x <= y) (contents s1 yi)
    /\ List.length (contents s1 yi) = (List.length targets - 2)%nat
    /\ (forall x, In x (contents s1 yi) ->
          In x targets /\ minimum targets <= x <= maximum targets).
Proof.
  intros g targets method k w out Hf H.
  destruct (call_in_Ok_inv _ _ _ _ _ _ _ Hf H)
    as (m & s1 & yi & cc & s2 & Hm & E & Hyi & -> & _).
  exists m, s1, yi, cc, s2. rewrite Hyi.
  repeat split; try assumption; try reflexivity.
  - apply interior_sorted.
  - apply interior_length.
  - now apply interior_In.
  - apply minimum_le. now apply interior_In.
  - apply maximum_ge. now apply interior_In.
Qed.

(** X6. The identity strategy, [all_sampler], returns every value whatever
    [k] is: without [keep_edges] the targets as they are, in their order;
    with [keep_edges] the minimum, the maximum and the interior in ascending
    order, which is a reordering of the targets when there are two or more,
    and the single target twice when there is one. *)
Theorem identity_returns_all_values : forall g targets method k,
  bound g "warnings" = true \/ (k = 100 /\ is_callable method = true) ->
  strategy_of method = Ok all_sampler ->
  call_in g targets method k false = (notices method k, Ok targets)
  /\ (targets <> [] ->
      call_in g targets method k true
      = (notices method k,
         Ok (minimum targets :: maximum targets :: interior targets)))
  /\ ((2 <= List.length targets)%nat ->
      Permutation targets
        (minimum targets :: maximum targets :: interior targets))
  /\ (forall x, targets = [x] ->
        minimum targets :: maximum targets :: interior targets = [x; x]).
Proof.
  intros g targets method k Hrun Hm. repeat split.
  - rewrite (call_in_plain g targets method k all_sampler Hrun Hm).
    unfold all_sampler, ret. cbn [warned]. f_equal. f_equal.
    unfold contents, caller_array. simpl. apply firstn_all.
  - intros Hne.
    rewrite (call_in_edges g targets method k all_sampler Hrun Hm Hne).
    reflexivity.
  - intros Hl.
    apply Permutation_trans
      with (minimum targets :: interior targets ++ [maximum targets]);
      [now apply interior_permutation|].
    constructor. apply Permutation_sym, Permutation_cons_append.
  - intros x ->. unfold minimum, maximum. simpl.
    rewrite Z.min_id, Z.max_id. reflexivity.
Qed.

Lemma tail_result : forall (m : sampler) yi kk c s1 r s',
  allocates_only m ->
  (cc <- m yi kk ;; np_append c cc) s1 = (Ok r, s') ->
  (List.length (heap s1) <= base r)%nat
  /\ heap s' = firstn (base r) (heap s') ++ [contents s' r]
  /\ base r = (List.length (heap s') - 1)%nat
  /\ start r = 0%nat
  /\ size r = List.length (contents s' r).
Proof.
  intros m yi kk c s1 r s' Hm. unfold bind.
  destruct (m yi kk s1) as [[cc | e] s2] eqn:E; [|discriminate].
  unfold np_append. intros H.
  pose proof (alloc_contents _ _ _ _ H) as Hc.
  rewrite alloc_eq in H. inversion H; subst r s'. clear H.
  cbn [base start size heap] in *.
  destruct (Hm _ _ _ _ _ E) as [new Hn].
  repeat split.
  - rewrite Hn, length_app. lia.
  - rewrite firstn_app, Nat.sub_diag, firstn_all. simpl.
    rewrite app_nil_r, Hc. reflexivity.
  - rewrite length_app. simpl. lia.
  - now rewrite Hc.
Qed.

(** X7. The array a call returns is a new one: it is the last buffer of the
    store, allocated by the call, so it shares no memory with the targets
    or with any array that existed before, also when the strategy is the
    identity and returns its argument. *)
Theorem returned_array_is_new :
  forall g y method k keep_edges s r s',
    (forall f, method = MCallable f -> allocates_only f) ->
    valid s y ->
    sample_center_points_in g y method k keep_edges s = (Ok r, s') ->
    (List.length (heap s) < base r)%nat
    /\ (forall a, valid s a -> base a <> base r)
    /\ base r = (List.length (heap s') - 1)%nat
    /\ start r = 0%nat
    /\ size r = List.length (contents s' r).
Proof.
  intros g y method k keep_edges s r s' Hf Hv H.
  assert (Hrun : bound g "warnings" = true
                 \/ (k = 100 /\ is_callable method = true)).
  { destruct (path_cases g method k) as [Hg | [Hk | [Hg Hdep]]];
      [tauto | tauto |].
    rewrite deprecated_raises_NameError in H by assumption. discriminate. }
  rewrite sample_center_points_in_run in H by exact Hrun.
  destruct (strategy_of method) as [m | e] eqn:Hm; [|discriminate].
  pose proof (strategy_of_allocates_only method m Hf Hm) as Hall.
  assert (Hgoal : (List.length (heap s) < base r)%nat
                  /\ base r = (List.length (heap s') - 1)%nat
                  /\ start r = 0%nat
                  /\ size r = List.length (contents s' r)).
  { remember (mkState (heap s) (warned s ++ notices method k)) as s0 eqn:Hs0.
    assert (Hv0 : valid s0 y) by (subst s0; exact Hv).
    assert (Hh : heap s0 = heap s) by (subst s0; reflexivity).
    rewrite <- Hh. clear Hs0 Hh.
    destruct keep_edges.
    - destruct (contents s0 y) as [|a v] eqn:Hc.
      + rewrite select_centers_edges_empty in H by assumption. discriminate.
      + rewrite select_centers_edges in H by (rewrite ?Hc; easy).
        apply tail_result in H; [|exact Hall].
        cbn [heap] in H. rewrite length_app in H. simpl in H.
        repeat split; try tauto. lia.
    - rewrite select_centers_plain in H.
      apply tail_result in H; [|exact Hall].
      cbn [heap] in H. rewrite length_app in H. simpl in H.
      repeat split; try tauto. lia. }
  repeat split; try tauto.
  intros a Ha. unfold valid in Ha. lia.
Qed.

(** ** The estimator *)

Section EstimatorProperties.

Variable L : libraries.

(** One pass of the loop, case by case. *)
Lemma epoch_eq : forall X y eval_set locals o w out,
  epoch L X y eval_set locals (mkMachine o w out)
  = match self_inference o with
    | None =>
        (Raised (AttributeError "'NoneType' object has no attribute 'update'"),
         mkMachine o w out)
    | Some _ =>
        match inference_update L X y w with
        | (inr e, w1) => (Raised (LibraryException e), mkMachine o w1 out)
        | (inl loss, w1) =>
            let tl := divide L loss (List.length y) in
            let o1 := set_train_loss o (self_train_loss o ++ [negate L tl]) in
            let out1 := if self_fitted o then out else out ++ [Progress loss] in
            match eval_set with
            | None => (Returned (Some tl, snd locals), mkMachine o1 w1 out1)
            | Some (X_test, y_test) =>
                match sess_run_loss L X_test y_test w1 with
                | (inr e, w2) =>
                    (Raised (LibraryException e), mkMachine o1 w2 out)
                | (inl l, w2) =>
                    let vl := divide L l (List.length y_test) in
                    (Returned (Some tl, Some vl),
                     mkMachine
                       (set_test_loss o1 (self_test_loss o ++ [negate L vl]))
                       w2 out1)
                end
            end
        end
    end.
Proof.
  intros X y eval_set locals o w out.
  unfold epoch, est_bind, get_self, set_self, library_call, emit, est_ret,
    est_raise.
  cbn [self world stdout].
  destruct (self_inference o); cbn; [|reflexivity].
  destruct (inference_update L X y w) as [[loss | e] w1]; cbn; [|reflexivity].
  destruct eval_set as [[X_test y_test]|]; cbn.
  - destruct (sess_run_loss L X_test y_test w1) as [[l | e] w2]; cbn;
      [|reflexivity].
    destruct (self_fitted o); reflexivity.
  - destruct (self_fitted o); reflexivity.
Qed.

(** What the passes do to the object and to the output, whether they
    complete or not. *)
Definition passes_effect (n : nat)
    (eval_set : option (features L * list scalar))
    (st st' : machine L) (dt dv : list (loss_value L)) (pr : list (event L))
    : Prop :=
  same_settings (self st) (self st')
  /\ self_train_loss (self st') = self_train_loss (self st) ++ dt
  /\ self_test_loss (self st') = self_test_loss (self st) ++ dv
  /\ stdout st' = stdout st ++ pr
  /\ Forall is_progress pr
  /\ (List.length dv <= List.length dt <= n)%nat
  /\ (List.length pr <= List.length dt)%nat
  /\ (eval_set = None -> dv = []).

Definition passes_completed (n : nat)
    (eval_set : option (features L * list scalar))
    (st : machine L)
    (locals' : option (loss_value L) * option (loss_value L))
    (dt dv : list (loss_value L)) (pr : list (event L)) : Prop :=
  List.length dt = n
  /\ (eval_set <> None -> List.length dv = n)
  /\ List.length pr = (if self_fitted (self st) then 0 else n)%nat
  /\ ((0 < n)%nat ->
      fst locals' <> None
      /\ (eval_set <> None -> snd locals' <> None)
      /\ self_inference (self st) <> None).

Lemma same_settings_refl : forall o : estimator L, same_settings o o.
Proof. intros o. repeat split. Qed.

Lemma same_settings_trans : forall o1 o2 o3 : estimator L,
  same_settings o1 o2 -> same_settings o2 o3 -> same_settings o1 o3.
Proof.
  unfold same_settings. intros o1 o2 o3 H1 H2.
  destruct H1 as (A1 & B1 & C1 & D1 & E1 & F1).
  destruct H2 as (A2 & B2 & C2 & D2 & E2 & F2).
  repeat split; congruence.
Qed.

Lemma epoch_effect : forall X y eval_set locals st r st',
  epoch L X y eval_set locals st = (r, st') ->
  exists dt dv pr,
    passes_effect 1 eval_set st st' dt dv pr
    /\ (forall locals', r = Returned locals' ->
          passes_completed 1 eval_set st locals' dt dv pr).
Proof.
  intros X y eval_set locals [o w out] r st' H. rewrite epoch_eq in H.
  destruct (self_inference o) as [u|] eqn:Hi.
  2: { inversion H; subst. exists [], [], [].
       split; [|discriminate].
       unfold passes_effect. cbn. rewrite !app_nil_r.
       repeat split; auto. }
  destruct (inference_update L X y w) as [[loss | e] w1].
  2: { inversion H; subst. exists [], [], [].
       split; [|discriminate].
       unfold passes_effect. cbn. rewrite !app_nil_r.
       repeat split; auto. }
  cbv zeta in H.
  destruct eval_set as [[X_test y_test]|].
  - destruct (sess_run_loss L X_test y_test w1) as [[l | e] w2].
    + inversion H; subst. clear H.
      exists [negate L (divide L loss (List.length y))],
             [negate L (divide L l (List.length y_test))],
             (if self_fitted o then [] else [Progress loss]).
      split.
      * unfold passes_effect. cbn.
        repeat split; auto; try discriminate;
          destruct (self_fitted o); cbn; rewrite ?app_nil_r; auto;
          constructor; [exact I | constructor].
      * intros locals' Hr. inversion Hr; subst.
        unfold passes_completed. cbn. rewrite Hi.
        repeat split; try discriminate; destruct (self_fitted o); reflexivity.
    + inversion H; subst. clear H.
      exists [negate L (divide L loss (List.length y))], [], [].
      split; [|discriminate].
      unfold passes_effect. cbn. rewrite !app_nil_r.
      repeat split; auto; discriminate.
  - inversion H; subst. clear H.
    exists [negate L (divide L loss (List.length y))], [],
           (if self_fitted o then [] else [Progress loss]).
    split.
    + unfold passes_effect. cbn. rewrite !app_nil_r.
      repeat split; auto; destruct (self_fitted o); cbn;
        rewrite ?app_nil_r; auto; constructor; [exact I | constructor].
    + intros locals' Hr. inversion Hr; subst.
      unfold passes_completed. cbn. rewrite Hi.
      repeat split; try discriminate; try congruence;
        destruct (self_fitted o); reflexivity.
Qed.

Lemma epochs_effect : forall n X y eval_set locals st r st',
  epochs L n X y eval_set locals st = (r, st') ->
  exists dt dv pr,
    passes_effect n eval_set st st' dt dv pr
    /\ (forall locals', r = Returned locals' ->
          passes_completed n eval_set st locals' dt dv pr
          /\ (n = 0%nat -> locals' = locals)).
Proof.
  induction n as [|n IH]; intros X y eval_set locals st r st' H.
  - cbn in H. inversion H; subst. exists [], [], []. split.
    + unfold passes_effect. rewrite !app_nil_r.
      split; [apply same_settings_refl|]. repeat split; auto.
    + intros locals' Hr. inversion Hr; subst. split; [|reflexivity].
      unfold passes_completed. cbn.
      repeat split; try lia. now destruct (self_fitted (self st')).
  - cbn [epochs] in H. unfold est_bind in H.
    destruct (epoch L X y eval_set locals st) as [[l1 | e] st1] eqn:E1.
    + destruct (epoch_effect _ _ _ _ _ _ _ E1) as (dt1 & dv1 & pr1 & He1 & Hc1).
      destruct (IH _ _ _ _ _ _ _ H) as (dt2 & dv2 & pr2 & He2 & Hc2).
      specialize (Hc1 l1 eq_refl).
      destruct He1 as (S1 & T1 & V1 & O1 & F1 & L1 & P1 & N1).
      destruct He2 as (S2 & T2 & V2 & O2 & F2 & L2 & P2 & N2).
      destruct Hc1 as (CT1 & CV1 & CP1 & CL1).
      assert (Hfit : self_fitted (self st1) = self_fitted (self st))
        by (destruct S1 as (_ & _ & _ & _ & Hf & _); exact Hf).
      exists (dt1 ++ dt2), (dv1 ++ dv2), (pr1 ++ pr2). split.
      * unfold passes_effect. rewrite !length_app.
        split; [apply (same_settings_trans _ _ _ S1 S2)|].
        split; [rewrite T2, T1; now rewrite app_assoc|].
        split; [rewrite V2, V1; now rewrite app_assoc|].
        split; [rewrite O2, O1; now rewrite app_assoc|].
        split; [apply Forall_app; now split|].
        split; [|split; [lia|]].
        -- destruct eval_set as [ev|].
           ++ rewrite CV1 by discriminate. lia.
           ++ rewrite (N1 eq_refl), (N2 eq_refl). simpl. lia.
        -- intros Hn. now rewrite (N1 Hn), (N2 Hn).
      * intros locals' Hr. destruct (Hc2 locals' Hr) as [Hc Hz].
        destruct Hc as (CT2 & CV2 & CP2 & CL2). split; [|discriminate].
        unfold passes_completed. rewrite !length_app.
        destruct (CL1 ltac:(lia)) as (A1 & B1 & I1).
        split; [lia|].
        split; [intros Hn; rewrite (CV1 Hn), (CV2 Hn); lia|].
        split;
          [rewrite CP1, CP2, Hfit; destruct (self_fitted (self st)); lia|].
        intros _. split; [|split; [|exact I1]].
        -- destruct n as [|n']; [rewrite (Hz eq_refl); exact A1|].
           apply CL2. lia.
        -- intros Hn. destruct n as [|n']; [rewrite (Hz eq_refl); auto|].
           apply CL2; [lia | exact Hn].
    + inversion H; subst.
      destruct (epoch_effect _ _ _ _ _ _ _ E1) as (dt1 & dv1 & pr1 & He1 & _).
      exists dt1, dv1, pr1. split; [|discriminate].
      destruct He1 as (S1 & T1 & V1 & O1 & F1 & L1 & P1 & N1).
      unfold passes_effect.
      split; [exact S1|]. split; [exact T1|]. split; [exact V1|].
      split; [exact O1|]. split; [exact F1|]. split; [lia|].
      split; [exact P1 | exact N1].
Qed.

(** X8. [partial_fit] with [n_epoch] zero or negative prints "fitting
    model" and then raises [UnboundLocalError]: the loop body never ran, so
    the local [train_loss] that line 168 prints was never assigned.  No
    attribute is changed and no library call is made. *)
Theorem partial_fit_without_epochs : forall X y n_epoch eval_set st,
  n_epoch <= 0 ->
  partial_fit L X y n_epoch eval_set st
  = (Raised (UnboundLocalError "train_loss"),
     mkMachine (self st) (world st) (stdout st ++ [Printed "fitting model"])).
Proof.
  intros X y n_epoch eval_set st Hn. unfold partial_fit.
  replace (Z.to_nat n_epoch) with 0%nat by lia. reflexivity.
Qed.

(** X9. [partial_fit] on an estimator whose [inference] is still [None]
    (no [fit] got as far as line 136) with one epoch or more prints
    "fitting model" and raises [AttributeError] at [self.inference.update];
    no attribute is changed and no library call is made. *)
Theorem partial_fit_before_fit : forall X y n_epoch eval_set st,
  self_inference (self st) = None ->
  0 < n_epoch ->
  partial_fit L X y n_epoch eval_set st
  = (Raised (AttributeError "'NoneType' object has no attribute 'update'"),
     mkMachine (self st) (world st) (stdout st ++ [Printed "fitting model"])).
Proof.
  intros X y n_epoch eval_set st Hi Hn. unfold partial_fit.
  destruct (Z.to_nat n_epoch) as [|n] eqn:E; [lia|].
  unfold est_bind at 1. cbn [emit]. unfold est_bind at 1.
  cbn [epochs]. unfold est_bind at 1. unfold epoch.
  unfold est_bind at 1. cbn [get_self self]. unfold est_bind at 1.
  rewrite Hi. reflexivity.
Qed.

(** What [partial_fit] does after its loop (lines 168-172), on the state
    the loop left. *)
Lemma partial_fit_eq : forall X y n_epoch eval_set st,
  partial_fit L X y n_epoch eval_set st
  = match epochs L (Z.to_nat n_epoch) X y eval_set (None, None)
            (mkMachine (self st) (world st)
               (stdout st ++ [Printed "fitting model"])) with
    | (Raised e, st1) => (Raised e, st1)
    | (Returned (None, _), st1) =>
        (Raised (UnboundLocalError "train_loss"), st1)
    | (Returned (Some tl, vl), st1) =>
        let out1 :=
          stdout st1 ++ [Printed ("mean log-loss train: " ++ format_loss L tl)]
        in
        match eval_set, vl with
        | Some _, None =>
            (Raised (UnboundLocalError "test_loss"),
             mkMachine (self st1) (world st1) out1)
        | _, _ =>
            let out2 :=
              match eval_set, vl with
              | Some _, Some v =>
                  out1 ++ [Printed ("man log-loss test: " ++ format_loss L v)]
              | _, _ => out1
              end in
            match sess_run_scales L (world st1) with
            | (inl scales, w) =>
                (Returned tt,
                 mkMachine (self st1) w
                   (out2 ++ [Printed ("optimal scales: " ++ scales)]))
            | (inr e, w) =>
                (Raised (LibraryException e), mkMachine (self st1) w out2)
            end
        end
    end.
Proof.
  intros X y n_epoch eval_set st. unfold partial_fit.
  unfold est_bind at 1. cbn [emit]. unfold est_bind at 1.
  destruct (epochs L (Z.to_nat n_epoch) X y eval_set (None, None) _)
    as [[[tl vl] | e] st1]; [|reflexivity].
  destruct tl as [tl|]; [|reflexivity].
  destruct eval_set as [ev|]; [destruct vl as [v|]|];
    cbn; unfold est_bind, emit, library_call, est_ret; cbn;
    try reflexivity;
    destruct (sess_run_scales L (world st1)) as [[scales | e] w]; reflexivity.
Qed.

(** X10. A [partial_fit] that returns ran one epoch or more on an estimator
    whose inference object exists.  It appended exactly [n_epoch] entries to
    [train_loss] and, when an evaluation set was given, [n_epoch] entries to
    [test_loss], none otherwise.  It printed "fitting model", then one
    progress bar per epoch if the estimator was not yet fitted and none if
    it was, then its two (or, with an evaluation set, three) summary lines. *)
Theorem partial_fit_returns : forall X y n_epoch eval_set st st',
  partial_fit L X y n_epoch eval_set st = (Returned tt, st') ->
  0 < n_epoch
  /\ self_inference (self st) <> None
  /\ exists dt dv pr summary,
       self_train_loss (self st') = self_train_loss (self st) ++ dt
       /\ List.length dt = Z.to_nat n_epoch
       /\ self_test_loss (self st') = self_test_loss (self st) ++ dv
       /\ List.length dv
          = match eval_set with
            | Some _ => Z.to_nat n_epoch
            | None => 0%nat
            end
       /\ stdout st'
          = stdout st ++ Printed "fitting model" :: pr ++ summary
       /\ Forall is_progress pr
       /\ List.length pr
          = (if self_fitted (self st) then 0%nat else Z.to_nat n_epoch)
       /\ Forall (fun e => ~ is_progress e) summary
       /\ List.length summary
          = match eval_set with Some _ => 3%nat | None => 2%nat end.
Proof.
  intros X y n_epoch eval_set st st' H. rewrite partial_fit_eq in H.
  destruct (epochs L (Z.to_nat n_epoch) X y eval_set (None, None) _)
    as [[[tl vl] | e] st1] eqn:E; [|discriminate].
  destruct tl as [tl|]; [|discriminate].
  destruct (epochs_effect _ _ _ _ _ _ _ _ E) as (dt & dv & pr & He & Hc).
  destruct (Hc _ eq_refl) as [Hc1 Hz]. clear Hc.
  destruct He as (S1 & T1 & V1 & O1 & F1 & L1 & P1 & N1).
  destruct Hc1 as (CT & CV & CP & CL).
  cbn [self world stdout] in *.
  assert (Hn : (0 < Z.to_nat n_epoch)%nat).
  { destruct (Z.to_nat n_epoch); [|lia].
    specialize (Hz eq_refl). discriminate. }
  destruct (CL Hn) as (_ & Hv & Hi).
  split; [lia|]. split; [exact Hi|].
  destruct eval_set as [ev|].
  - destruct vl as [v|]; [|exfalso; apply Hv; [discriminate | reflexivity]].
    cbv zeta in H.
    destruct (sess_run_scales L (world st1)) as [[scales | e] w];
      [|discriminate].
    inversion H; subst st'. clear H. cbn [self stdout].
    exists dt, dv, pr,
      [Printed ("mean log-loss train: " ++ format_loss L tl);
       Printed ("man log-loss test: " ++ format_loss L v);
       Printed ("optimal scales: " ++ scales)].
    repeat split; try assumption.
    + apply CV. discriminate.
    + rewrite O1, <- !app_assoc. reflexivity.
    + repeat constructor; intros [].
  - cbv zeta in H.
    assert (H' : match sess_run_scales L (world st1) with
                 | (inl scales, w) =>
                     (Returned tt,
                      mkMachine (self st1) w
                        ((stdout st1
                          ++ [Printed ("mean log-loss train: "
                                       ++ format_loss L tl)])
                         ++ [Printed ("optimal scales: " ++ scales)]))
                 | (inr e, w) =>
                     (Raised (LibraryException e),
                      mkMachine (self st1) w
                        (stdout st1
                         ++ [Printed ("mean log-loss train: "
                                      ++ format_loss L tl)]))
                 end = (Returned tt, st'))
      by (destruct vl; exact H).
    clear H.
    destruct (sess_run_scales L (world st1)) as [[scales | e] w];
      [|discriminate].
    inversion H'; subst st'. clear H'. cbn [self stdout].
    exists dt, dv, pr,
      [Printed ("mean log-loss train: " ++ format_loss L tl);
       Printed ("optimal scales: " ++ scales)].
    repeat split; try assumption.
    + rewrite (N1 eq_refl). reflexivity.
    + rewrite O1, <- !app_assoc. reflexivity.
    + repeat constructor; intros [].
Qed.

(** X11. Whatever its outcome, [partial_fit] only appends to the two loss
    histories: the entries they held stay in place, [train_loss] gains at
    most [n_epoch] entries and [test_loss] never more than [train_loss]
    (none without an evaluation set); [fitted], [inference], the centers
    and the sampling settings are not assigned. *)
Theorem partial_fit_only_appends : forall X y n_epoch eval_set st r st',
  partial_fit L X y n_epoch eval_set st = (r, st') ->
  same_settings (self st) (self st')
  /\ exists dt dv,
       self_train_loss (self st') = self_train_loss (self st) ++ dt
       /\ self_test_loss (self st') = self_test_loss (self st) ++ dv
       /\ (List.length dv <= List.length dt <= Z.to_nat n_epoch)%nat
       /\ (eval_set = None -> dv = []).
Proof.
  intros X y n_epoch eval_set st r st' H. rewrite partial_fit_eq in H.
  destruct (epochs L (Z.to_nat n_epoch) X y eval_set (None, None) _)
    as [[[tl vl] | e] st1] eqn:E;
    destruct (epochs_effect _ _ _ _ _ _ _ _ E) as (dt & dv & pr & He & _);
    destruct He as (S1 & T1 & V1 & O1 & F1 & L1 & P1 & N1);
    cbn [self world stdout] in *.
  - assert (Hs : self st' = self st1).
    { destruct tl as [tl|]; [|inversion H; reflexivity].
      cbv zeta in H.
      destruct eval_set as [ev|]; destruct vl as [v|];
        try (inversion H; reflexivity);
        destruct (sess_run_scales L (world st1)) as [[scales | e] w];
        inversion H; reflexivity. }
    rewrite Hs. split; [exact S1|]. exists dt, dv.
    exact (conj T1 (conj V1 (conj L1 N1))).
  - inversion H; subst. split; [exact S1|]. exists dt, dv.
    exact (conj T1 (conj V1 (conj L1 N1))).
Qed.

(** [_build_model], case by case. *)
Lemma _build_model_eq : forall X y st,
  _build_model L X y st
  = match graph_before_centers L X y (world st) with
    | (Some e, w) =>
        (Raised (LibraryException e), mkMachine (self st) w (stdout st))
    | (None, w) =>
        let out :=
          stdout st
          ++ map Warned
               (fst (call y (self_center_sampling_method (self st))
                       (self_n_centers (self st)) (self_keep_edges (self st))))
        in
        match snd (call y (self_center_sampling_method (self st))
                     (self_n_centers (self st)) (self_keep_edges (self st)))
        with
        | Raise e => (Raised (SamplerException e), mkMachine (self st) w out)
        | Ok locs =>
            match graph_after_centers L locs (self_n_centers (self st)) y w
            with
            | (None, w2) =>
                (Returned tt,
                 mkMachine (set_locs (self st) (Some locs)) w2 out)
            | (Some e, w2) =>
                (Raised (LibraryException e),
                 mkMachine (set_locs (self st) (Some locs)) w2 out)
            end
        end
    end.
Proof.
  intros X y st. unfold _build_model, est_bind, library_do, get_self.
  destruct (graph_before_centers L X y (world st)) as [[e|] w];
    [reflexivity|].
  cbn [self world stdout].
  destruct (call y (self_center_sampling_method (self st))
              (self_n_centers (self st)) (self_keep_edges (self st)))
    as [ws [locs | e]]; cbn; [|reflexivity].
  destruct (graph_after_centers L locs (self_n_centers (self st)) y w)
    as [[e|] w2]; reflexivity.
Qed.

Lemma call_deprecated : forall targets method k keep_edges,
  is_callable method = false \/ k <> 100 ->
  call targets method k keep_edges = ([], Raise (NameError "warnings")).
Proof.
  intros targets method k keep_edges H.
  change (call targets method k keep_edges)
    with (call_in kmn_globals targets method k keep_edges).
  apply call_in_NameError; [reflexivity | tauto].
Qed.

Lemma call_returns_only_direct : forall targets method k keep_edges ws locs,
  call targets method k keep_edges = (ws, Ok locs) ->
  is_callable method = true /\ k = 100.
Proof.
  intros targets method k keep_edges ws locs H.
  destruct (is_callable method) eqn:Hc.
  - destruct (Z.eq_dec k 100) as [Hk | Hk]; [tauto|].
    rewrite call_deprecated in H by (now right). discriminate.
  - rewrite call_deprecated in H by (now left). discriminate.
Qed.

(** X12. In the module as written, [_build_model], and [fit] with it, stop
    at the centers (line 227) for every estimator whose
    [center_sampling_method] is a string or [None], or whose [n_centers] is
    not 100, the constructor's defaults ('k_means', 20) among them: unless
    the graph set-up before that line fails first, [NameError] is raised.
    By then only that set-up (lines 208-223: the placeholders, the default
    network and the attributes that hold them) has taken effect: [locs],
    [inference], [fitted], the two loss histories and the sampling settings
    are as they were, nothing is printed, and no library call after line 223
    is made, so no inference object is built and no training step runs. *)
Theorem fit_stops_at_the_centers : forall X y n_epoch eval_set st,
  is_callable (self_center_sampling_method (self st)) = false
  \/ self_n_centers (self st) <> 100 ->
  _build_model L X y st
  = match graph_before_centers L X y (world st) with
    | (Some e, w) =>
        (Raised (LibraryException e), mkMachine (self st) w (stdout st))
    | (None, w) =>
        (Raised (SamplerException (NameError "warnings")),
         mkMachine (self st) w (stdout st))
    end
  /\ fit L X y n_epoch eval_set st = _build_model L X y st.
Proof.
  intros X y n_epoch eval_set st Hdep.
  assert (Hb : _build_model L X y st
               = match graph_before_centers L X y (world st) with
                 | (Some e, w) =>
                     (Raised (LibraryException e),
                      mkMachine (self st) w (stdout st))
                 | (None, w) =>
                     (Raised (SamplerException (NameError "warnings")),
                      mkMachine (self st) w (stdout st))
                 end).
  { rewrite _build_model_eq.
    destruct (graph_before_centers L X y (world st)) as [[e|] w];
      [reflexivity|].
    rewrite call_deprecated by exact Hdep. cbn. now rewrite app_nil_r. }
  split; [exact Hb|].
  unfold fit. unfold est_bind at 1. rewrite Hb.
  destruct (graph_before_centers L X y (world st)) as [[e|] w]; reflexivity.
Qed.

(** X13. [fit] sets [fitted] only when everything before line 142
    succeeded.  A [fit] that returns leaves [fitted] true and the inference
    object set; it was given one epoch or more, the estimator holds a
    function as [center_sampling_method] and 100 as [n_centers], the
    centers stored in [locs] are those [sample_center_points] returned for
    the targets, and [train_loss] gained one entry per epoch.  A [fit] that
    raises leaves [fitted] as it was. *)
Theorem fit_sets_fitted_on_success : forall X y n_epoch eval_set st r st',
  fit L X y n_epoch eval_set st = (r, st') ->
  (r = Returned tt ->
   self_fitted (self st') = true
   /\ self_inference (self st') = Some tt
   /\ 0 < n_epoch
   /\ is_callable (self_center_sampling_method (self st)) = true
   /\ self_n_centers (self st) = 100
   /\ (exists ws locs,
         call y (self_center_sampling_method (self st)) 100
           (self_keep_edges (self st)) = (ws, Ok locs)
         /\ self_locs (self st') = Some locs)
   /\ (exists dt,
         self_train_loss (self st') = self_train_loss (self st) ++ dt
         /\ List.length dt = Z.to_nat n_epoch))
  /\ (forall e, r = Raised e -> self_fitted (self st') = self_fitted (self st)).
Proof.
  intros X y n_epoch eval_set st r st' H.
  unfold fit in H. unfold est_bind at 1 in H. rewrite _build_model_eq in H.
  destruct (graph_before_centers L X y (world st)) as [[e0|] w].
  { inversion H; subst. split; [discriminate | reflexivity]. }
  cbv zeta in H.
  destruct (call y (self_center_sampling_method (self st))
              (self_n_centers (self st)) (self_keep_edges (self st)))
    as [ws [locs | e0]] eqn:Hcall; cbn [fst snd] in H.
  2: { inversion H; subst. split; [discriminate | reflexivity]. }
  destruct (call_returns_only_direct _ _ _ _ _ _ Hcall) as [Hc Hk].
  destruct (graph_after_centers L locs (self_n_centers (self st)) y w)
    as [[e0|] w2].
  { inversion H; subst. split; [discriminate | reflexivity]. }
  unfold est_bind at 1 in H. unfold library_do at 1 in H.
  cbn [self world stdout] in H.
  destruct (ed_MAP L w2) as [[e0|] w3].
  { inversion H; subst. split; [discriminate | reflexivity]. }
  unfold est_bind at 1 in H. cbn [get_self self] in H.
  unfold est_bind at 1 in H. cbn [set_self self world stdout] in H.
  unfold est_bind at 1 in H. unfold library_do at 1 in H.
  cbn [self world stdout] in H.
  destruct (inference_initialize L n_epoch w3) as [[e0|] w4].
  { inversion H; subst. split; [discriminate | reflexivity]. }
  unfold est_bind at 1 in H.
  match type of H with
  | context [partial_fit L X y n_epoch eval_set ?s0] =>
      destruct (partial_fit L X y n_epoch eval_set s0) as [[[]| e0] st1] eqn:E
  end.
  - unfold est_bind, get_self, set_self in H. inversion H; subst. clear H.
    destruct (partial_fit_returns _ _ _ _ _ _ E)
      as (Hn & _ & dt & dv & pr & summary & T & LT & _).
    destruct (partial_fit_only_appends _ _ _ _ _ _ _ E) as [Hs _].
    destruct Hs as (_ & _ & _ & Hi & _ & Hl).
    cbn in Hi, Hl, T. split; [|discriminate]. intros _. cbn.
    split; [reflexivity|]. split; [exact Hi|]. split; [exact Hn|].
    split; [exact Hc|]. split; [exact Hk|].
    split; [exists ws, locs; rewrite <- Hk; split; [exact Hcall | exact Hl]|].
    exists dt. split; [exact T | exact LT].
  - inversion H; subst. clear H. split; [discriminate|]. intros e _.
    destruct (partial_fit_only_appends _ _ _ _ _ _ _ E) as [Hs _].
    destruct Hs as (_ & _ & _ & _ & Hf & _). exact Hf.
Qed.

End EstimatorProperties.

End Samplers.

(** * The module run on concrete inputs *)

Lemma example_permutation_spec :
  forall n, Permutation (example_permutation n) (seq 0 n).
Proof.
  intros n. unfold example_permutation. apply Permutation_sym, Permutation_rev.
Qed.

Lemma example_KMeans_fit_shape :
  forall k v centers,
    example_KMeans_fit k v = Ok centers -> Z.of_nat (List.length centers) = k.
Proof.
  intros k v centers. unfold example_KMeans_fit.
  destruct (k =? Z.of_nat (List.length v)) eqn:E; [|discriminate].
  intros H. inversion H; subst. apply Z.eqb_eq in E.
  rewrite <- (Permutation_length (ScalarSort.Permuted_sort v)). now symmetry.
Qed.

Lemma example_AgglomerativeClustering_fit_labels :
  forall k v labels,
    example_AgglomerativeClustering_fit k v = Ok labels ->
    Z.of_nat (List.length (nodup Nat.eq_dec labels)) = k.
Proof.
  intros k v labels. unfold example_AgglomerativeClustering_fit.
  destruct (k =? Z.of_nat (List.length v)) eqn:E; [|discriminate].
  intros H. inversion H; subst. apply Z.eqb_eq in E.
  rewrite nodup_fixed_point by apply seq_NoDup.
  rewrite length_seq. now symmetry.
Qed.

(** The module as written ([example_call]) and the function body in a
    module whose globals are given ([example_call_in]), with the example
    libraries. *)
Abbreviation example_call :=
  (call example_permutation example_KMeans_fit
        example_AgglomerativeClustering_fit example_mean).

Abbreviation example_call_in :=
  (call_in example_permutation example_KMeans_fit
           example_AgglomerativeClustering_fit example_mean).

Abbreviation example_sample_center_points_in :=
  (sample_center_points_in example_permutation example_KMeans_fit
     example_AgglomerativeClustering_fit example_mean).

(** C1 at a concrete input: [sample_center_points(y)] with [y = [3, 1, 2]]
    and every other argument left to its default raises [NameError], while
    the direct call with [all_sampler] returns [y], and so does the default
    call, with its notice, once [import warnings] is added. *)
Lemma deprecated_paths_raise_NameError_witness :
  (100 <> 100 \/ is_callable MNone = false)
  /\ example_call [3; 1; 2] MNone 100 false
     = ([], Raise (NameError "warnings"))
  /\ example_call [3; 1; 2] (MCallable all_sampler) 100 false
     = ([], Ok [3; 1; 2])
  /\ example_call_in kmn_globals_with_warnings [3; 1; 2] MNone 100 false
     = ([(DeprecationWarning,
          "Passing a string as method is deprecated, pass a sampler method instead")],
        Ok [3; 1; 2]).
Proof.
  assert (H : 100 <> 100 \/ is_callable MNone = false) by (right; reflexivity).
  split; [exact H|]. split; [|split; reflexivity].
  exact (deprecated_paths_raise_NameError example_permutation
           example_KMeans_fit example_AgglomerativeClustering_fit example_mean
           [3; 1; 2] MNone 100 false H).
Defined.

Lemma keep_edges_keeps_minimum_and_maximum_witness :
  [3; 1; 2] <> []
  /\ example_call_in kmn_globals [3; 1; 2] (MCallable fixed_sampler) 100 true
     = ([], Ok [1; 3; 1; 2; 3; 4; 5])
  /\ In (minimum [3; 1; 2]) [1; 3; 1; 2; 3; 4; 5]
  /\ In (maximum [3; 1; 2]) [1; 3; 1; 2; 3; 4; 5].
Proof.
  assert (Hne : [3; 1; 2] <> []) by discriminate.
  assert (Hf : forall f, MCallable fixed_sampler = MCallable f ->
                         allocates_only f).
  { intros f Heq. injection Heq as <-. apply fixed_sampler_allocates_only. }
  assert (Hcall : example_call_in kmn_globals [3; 1; 2]
                    (MCallable fixed_sampler) 100 true
                  = ([], Ok [1; 3; 1; 2; 3; 4; 5])) by reflexivity.
  split; [exact Hne|]. split; [exact Hcall|].
  exact (keep_edges_keeps_minimum_and_maximum example_permutation
           example_KMeans_fit example_AgglomerativeClustering_fit example_mean
           kmn_globals [3; 1; 2] (MCallable fixed_sampler) 100 []
           [1; 3; 1; 2; 3; 4; 5] Hne Hf Hcall).
Defined.

Abbreviation example_random_sampler := (random_sampler example_permutation).
Abbreviation example_k_means_sampler := (k_means_sampler example_KMeans_fit).
Abbreviation example_agglomerative_sampler :=
  (agglomerative_sampler example_AgglomerativeClustering_fit example_mean).
Abbreviation example_hundred_targets := (map Z.of_nat (seq 1 100)).

Lemma returned_centers_have_length_k_witness :
  strategy_of example_permutation example_KMeans_fit
    example_AgglomerativeClustering_fit example_mean (MCallable example_random_sampler)
  = Ok example_random_sampler
  /\ (example_random_sampler = example_random_sampler
      \/ example_random_sampler = example_k_means_sampler
      \/ example_random_sampler = example_agglomerative_sampler
      \/ example_random_sampler = distance_sampler)
  /\ example_call_in kmn_globals example_hundred_targets
       (MCallable example_random_sampler) 100 true
     = ([], Ok (1 :: 100 :: map Z.of_nat (rev (seq 2 98))))
  /\ Z.of_nat (List.length (1 :: 100 :: map Z.of_nat (rev (seq 2 98)))) = 100
  /\ example_call_in kmn_globals example_hundred_targets
       (MCallable example_k_means_sampler) 100 false
     = ([], Ok example_hundred_targets)
  /\ example_call_in kmn_globals example_hundred_targets
       (MCallable example_agglomerative_sampler) 100 false
     = ([], Ok example_hundred_targets)
  /\ Z.of_nat (List.length example_hundred_targets) = 100.
Proof.
  assert (Hm : strategy_of example_permutation example_KMeans_fit
    example_AgglomerativeClustering_fit example_mean (MCallable example_random_sampler)
               = Ok example_random_sampler) by reflexivity.
  assert (Hc : example_random_sampler = example_random_sampler
               \/ example_random_sampler = example_k_means_sampler
               \/ example_random_sampler = example_agglomerative_sampler
               \/ example_random_sampler = distance_sampler)
    by (left; reflexivity).
  assert (Hcall : example_call_in kmn_globals example_hundred_targets
                    (MCallable example_random_sampler) 100 true
                  = ([], Ok (1 :: 100 :: map Z.of_nat (rev (seq 2 98)))))
    by (vm_compute; reflexivity).
  assert (Hkm : example_call_in kmn_globals example_hundred_targets
                  (MCallable example_k_means_sampler) 100 false
                = ([], Ok example_hundred_targets))
    by (vm_compute; reflexivity).
  assert (Hag : example_call_in kmn_globals example_hundred_targets
                  (MCallable example_agglomerative_sampler) 100 false
                = ([], Ok example_hundred_targets))
    by (vm_compute; reflexivity).
  split; [exact Hm|]. split; [exact Hc|]. split; [exact Hcall|].
  split.
  - exact (returned_centers_have_length_k example_permutation
             example_KMeans_fit example_AgglomerativeClustering_fit
             example_mean example_permutation_spec example_KMeans_fit_shape
             example_AgglomerativeClustering_fit_labels
             kmn_globals example_hundred_targets
             (MCallable example_random_sampler) 100 true []
             (1 :: 100 :: map Z.of_nat (rev (seq 2 98)))
             example_random_sampler Hm Hc Hcall).
  - split; [exact Hkm|]. split; [exact Hag|].
    exact (returned_centers_have_length_k example_permutation
             example_KMeans_fit example_AgglomerativeClustering_fit
             example_mean example_permutation_spec example_KMeans_fit_shape
             example_AgglomerativeClustering_fit_labels
             kmn_globals example_hundred_targets
             (MCallable example_k_means_sampler) 100 false []
             example_hundred_targets example_k_means_sampler eq_refl
             (or_intror (or_introl eq_refl)) Hkm).
Defined.

Abbreviation example_state := (mkState [[10; 20; 30]] []).
Abbreviation example_array := (mkArray 0 0 3).

Lemma random_sampler_without_replacement_witness :
  0 < 2
  /\ (2 <= Z.of_nat (List.length (contents example_state example_array)) ->
      exists idx r s',
        random_sampler example_permutation example_array 2 example_state
        = (Ok r, s') /\
        contents s' r
        = map (fun i => nth i (contents example_state example_array) 0) idx /\
        Z.of_nat (List.length idx) = 2 /\
        NoDup idx /\
        (forall i, In i idx ->
           (i < List.length (contents example_state example_array))%nat) /\
        (forall x, In x (contents s' r) ->
           In x (contents example_state example_array)))
  /\ random_sampler example_permutation example_array 2 example_state
     = (Ok (mkArray 1 0 2), mkState [[10; 20; 30]; [30; 20]] []).
Proof.
  assert (Hk : 0 < 2) by lia.
  split; [exact Hk|]. split; [|reflexivity].
  exact (proj1 (random_sampler_without_replacement example_permutation
                  example_permutation_spec example_array 2 example_state Hk)).
Defined.

Lemma sample_center_points_leaves_targets_unchanged_witness :
  valid (caller_state [3; 1; 2]) (caller_array [3; 1; 2])
  /\ example_sample_center_points_in kmn_globals (caller_array [3; 1; 2])
       (MCallable all_sampler) 100 true (caller_state [3; 1; 2])
     = (Ok (mkArray 4 0 3),
        mkState [[3; 1; 2]; []; [1; 2; 3]; [1; 3]; [1; 3; 2]] [])
  /\ contents (mkState [[3; 1; 2]; []; [1; 2; 3]; [1; 3]; [1; 3; 2]] [])
       (caller_array [3; 1; 2])
     = contents (caller_state [3; 1; 2]) (caller_array [3; 1; 2])
  /\ firstn (List.length (heap (caller_state [3; 1; 2])))
       (heap (mkState [[3; 1; 2]; []; [1; 2; 3]; [1; 3]; [1; 3; 2]] []))
     = heap (caller_state [3; 1; 2]).
Proof.
  assert (Hv : valid (caller_state [3; 1; 2]) (caller_array [3; 1; 2]))
    by (unfold valid; simpl; lia).
  assert (Hf : forall f, MCallable all_sampler = MCallable f ->
                         allocates_only f).
  { intros f Heq. injection Heq as <-. apply all_sampler_allocates_only. }
  assert (Hrun : example_sample_center_points_in kmn_globals
                   (caller_array [3; 1; 2]) (MCallable all_sampler) 100 true
                   (caller_state [3; 1; 2])
                 = (Ok (mkArray 4 0 3),
                    mkState [[3; 1; 2]; []; [1; 2; 3]; [1; 3]; [1; 3; 2]] []))
    by reflexivity.
  split; [exact Hv|]. split; [exact Hrun|].
  exact (sample_center_points_leaves_targets_unchanged example_permutation
           example_KMeans_fit example_AgglomerativeClustering_fit example_mean
           kmn_globals (caller_array [3; 1; 2]) (MCallable all_sampler) 100
           true (caller_state [3; 1; 2]) _ _ Hf Hv Hrun).
Defined.

(** C10 at [[5, 1, 5, 1, 3]]: one 1 and one 5 become the edges, the other
    1 and 5 stay in the interior given to the strategy. *)
Abbreviation example_targets := [5; 1; 5; 1; 3].

Lemma edge_trimming_removes_one_minimum_and_one_maximum_witness :
  (bound kmn_globals "warnings" = true
   \/ (100 = 100 /\ is_callable (MCallable all_sampler) = true))
  /\ example_targets <> []
  /\ interior example_targets = [1; 3; 5]
  /\ example_call_in kmn_globals example_targets (MCallable all_sampler) 100
       true
     = ([], Ok [1; 5; 1; 3; 5])
  /\ (forall x,
        count_occ Z.eq_dec example_targets x
        = (count_occ Z.eq_dec (interior example_targets) x
           + (if Z.eq_dec (minimum example_targets) x then 1 else 0)
           + (if Z.eq_dec (maximum example_targets) x then 1 else 0))%nat).
Proof.
  assert (Hrun : bound kmn_globals "warnings" = true
                 \/ (100 = 100 /\ is_callable (MCallable all_sampler) = true))
    by (right; split; reflexivity).
  assert (Hne : example_targets <> []) by discriminate.
  assert (Hl : (2 <= List.length example_targets)%nat) by (simpl; lia).
  split; [exact Hrun|]. split; [exact Hne|].
  split; [reflexivity|]. split; [reflexivity|].
  exact (proj1 (proj2 (proj2 (proj2
           (edge_trimming_removes_one_minimum_and_one_maximum
              example_permutation example_KMeans_fit
              example_AgglomerativeClustering_fit example_mean
              kmn_globals example_targets (MCallable all_sampler) 100
              all_sampler Hrun eq_refl Hne)))) Hl).
Defined.

(** C4 as stated fails at [y = [5]], [k = 1], [keep_edges = True] with the
    fixed strategy: the module as written raises [NameError], and with
    [import warnings] added the call returns an array. *)
Lemma keep_edges_small_k_counterexample :
  ~ fails_with ConfigurationError
      (example_call [5] (MCallable fixed_sampler) 1 true)
  /\ ~ fails_with ConfigurationError
        (example_call_in kmn_globals_with_warnings [5]
           (MCallable fixed_sampler) 1 true).
Proof.
  split; intros [e [He Hr]]; vm_compute in He; inversion He; subst e;
    discriminate Hr.
Qed.

Lemma keep_edges_small_k_is_not_checked_witness :
  bound kmn_globals_with_warnings "warnings" = true
  /\ [5] <> []
  /\ 1 < 2
  /\ example_call_in kmn_globals_with_warnings [5] (MCallable fixed_sampler) 1
       true
     = ([(DeprecationWarning,
          "Passing k is deprected, pass a sampler method instead")],
        Ok [5; 5; 1; 2; 3; 4; 5])
  /\ example_call_in kmn_globals_with_warnings [5] (MCallable all_sampler) 1
       true
     = (notices (MCallable all_sampler) 1,
        Ok (minimum [5] :: maximum [5] :: interior [5])).
Proof.
  assert (Hg : bound kmn_globals_with_warnings "warnings" = true)
    by reflexivity.
  assert (Hne : [5] <> []) by discriminate.
  assert (Hk : 1 < 2) by lia.
  split; [exact Hg|]. split; [exact Hne|]. split; [exact Hk|].
  split; [reflexivity|].
  exact (proj2 (keep_edges_small_k_is_not_checked example_permutation
                  example_KMeans_fit example_AgglomerativeClustering_fit
                  example_mean kmn_globals_with_warnings [5]
                  (MCallable fixed_sampler) 1 fixed_sampler Hg eq_refl Hne Hk)).
Defined.

(** C5 as stated fails at [y = [10, 20, 30]], [k = 0] with the identity
    strategy: the module as written raises [NameError], and with
    [import warnings] added the call returns [y]. *)
Lemma nonpositive_k_counterexample :
  ~ fails_with ConfigurationError
      (example_call [10; 20; 30] (MCallable all_sampler) 0 false)
  /\ ~ fails_with ConfigurationError
        (example_call_in kmn_globals_with_warnings [10; 20; 30]
           (MCallable all_sampler) 0 false).
Proof.
  split; intros [e [He Hr]]; vm_compute in He; inversion He; subst e;
    discriminate Hr.
Qed.

Lemma nonpositive_k_is_not_checked_witness :
  bound kmn_globals_with_warnings "warnings" = true
  /\ 0 <= 0
  /\ example_call_in kmn_globals_with_warnings [10; 20; 30]
       (MCallable all_sampler) 0 false
     = ([(DeprecationWarning,
          "Passing k is deprected, pass a sampler method instead")],
        Ok [10; 20; 30])
  /\ example_call_in kmn_globals_with_warnings [10; 20; 30]
       (MCallable all_sampler) 0 true
     = ([(DeprecationWarning,
          "Passing k is deprected, pass a sampler method instead")],
        Ok [10; 30; 20]).
Proof.
  assert (Hg : bound kmn_globals_with_warnings "warnings" = true)
    by reflexivity.
  assert (Hk : 0 <= 0) by lia.
  split; [exact Hg|]. split; [exact Hk|]. split; [|reflexivity].
  exact (proj2 (proj2 (nonpositive_k_is_not_checked example_permutation
                         example_KMeans_fit
                         example_AgglomerativeClustering_fit example_mean
                         kmn_globals_with_warnings [10; 20; 30]
                         (MCallable all_sampler) 0 all_sampler Hg eq_refl Hk))).
Defined.

(** C6 at the name "bogus". *)
Lemma unknown_name_lookup_is_not_reached_witness :
  ~ In "bogus" ["random"; "distance"; "k_means"; "agglomerative"]
  /\ example_call [1; 2; 3] (MStr "bogus") 100 false
     = ([], Raise (NameError "warnings"))
  /\ example_call_in kmn_globals_with_warnings [1; 2; 3] (MStr "bogus") 100
       false
     = ([(DeprecationWarning,
          "Passing a string as method is deprecated, pass a sampler method instead")],
        Raise (ValueError "unknown method bogus")).
Proof.
  assert (Hn : ~ In "bogus" ["random"; "distance"; "k_means"; "agglomerative"]).
  { simpl. intros [H | [H | [H | [H | []]]]]; discriminate H. }
  split; [exact Hn|]. split; [|reflexivity].
  exact (proj2 (unknown_name_lookup_is_not_reached example_permutation
                  example_KMeans_fit example_AgglomerativeClustering_fit
                  example_mean "bogus" Hn) [1; 2; 3] 100 false).
Defined.

(** * Further properties on concrete inputs *)

Abbreviation example_strategy_of :=
  (strategy_of example_permutation example_KMeans_fit
     example_AgglomerativeClustering_fit example_mean).

Lemma random_sampler_of_everything_is_a_permutation_witness :
  contents example_state example_array <> []
  /\ random_sampler example_permutation example_array 3 example_state
     = (Ok (mkArray 1 0 3), mkState [[10; 20; 30]; [30; 20; 10]] [])
  /\ exists r s',
       random_sampler example_permutation example_array
         (Z.of_nat (List.length (contents example_state example_array)))
         example_state = (Ok r, s')
       /\ Permutation (contents s' r) (contents example_state example_array).
Proof.
  assert (Hne : contents example_state example_array <> [])
    by (cbv; discriminate).
  split; [exact Hne|]. split; [reflexivity|].
  exact (random_sampler_of_everything_is_a_permutation example_permutation
           example_permutation_spec example_array example_state Hne).
Defined.

Lemma empty_targets_witness :
  (bound kmn_globals "warnings" = true
   \/ (100 = 100 /\ is_callable (MCallable fixed_sampler) = true))
  /\ example_strategy_of (MCallable fixed_sampler) = Ok fixed_sampler
  /\ example_call_in kmn_globals [] (MCallable fixed_sampler) 100 true
     = ([], Raise IndexError)
  /\ example_call_in kmn_globals [] (MCallable fixed_sampler) 100 false
     = ([], Ok [1; 2; 3; 4; 5]).
Proof.
  assert (Hrun : bound kmn_globals "warnings" = true
                 \/ (100 = 100 /\ is_callable (MCallable fixed_sampler) = true))
    by (right; split; reflexivity).
  assert (Hm : example_strategy_of (MCallable fixed_sampler) = Ok fixed_sampler)
    by reflexivity.
  split; [exact Hrun|]. split; [exact Hm|].
  exact (empty_targets example_permutation example_KMeans_fit
           example_AgglomerativeClustering_fit example_mean kmn_globals
           (MCallable fixed_sampler) 100 fixed_sampler Hrun Hm).
Defined.

Lemma exceptions_of_a_call_witness :
  example_call_in kmn_globals [] (MCallable all_sampler) 100 true
  = ([], Raise IndexError)
  /\ ((IndexError = NameError "warnings" /\ bound kmn_globals "warnings" = false
       /\ (100 <> 100 \/ is_callable (MCallable all_sampler) = false))
      \/ (exists name,
            MCallable all_sampler = MStr name
            /\ IndexError = ValueError ("unknown method " ++ name)
            /\ sampler_from_name example_permutation example_KMeans_fit
                 example_AgglomerativeClustering_fit example_mean (Some name)
               = Raise IndexError)
      \/ (IndexError = IndexError /\ true = true /\ @nil scalar = [])
      \/ (exists m yi s1 s2,
            example_strategy_of (MCallable all_sampler) = Ok m
            /\ m yi (100 - 2) s1 = (Raise IndexError, s2)
            /\ contents s1 yi = interior [])).
Proof.
  assert (H : example_call_in kmn_globals [] (MCallable all_sampler) 100 true
              = ([], Raise IndexError)) by reflexivity.
  split; [exact H|].
  exact (exceptions_of_a_call example_permutation example_KMeans_fit
           example_AgglomerativeClustering_fit example_mean kmn_globals []
           (MCallable all_sampler) 100 true [] IndexError H).
Defined.

Abbreviation example_three := [3; 1; 2].

Lemma keep_edges_layout_witness :
  example_call_in kmn_globals example_three (MCallable fixed_sampler) 100 true
  = ([], Ok [1; 3; 1; 2; 3; 4; 5])
  /\ exists m s1 yi cc s2,
       example_strategy_of (MCallable fixed_sampler) = Ok m
       /\ m yi (100 - 2) s1 = (Ok cc, s2)
       /\ [1; 3; 1; 2; 3; 4; 5]
          = minimum example_three :: maximum example_three :: contents s2 cc
       /\ StronglySorted (fun x y => x <= y) (contents s1 yi)
       /\ List.length (contents s1 yi) = (List.length example_three - 2)%nat
       /\ (forall x, In x (contents s1 yi) ->
             In x example_three
             /\ minimum example_three <= x <= maximum example_three).
Proof.
  assert (Hf : forall f, MCallable fixed_sampler = MCallable f ->
                         allocates_only f).
  { intros f Heq. injection Heq as <-. apply fixed_sampler_allocates_only. }
  assert (H : example_call_in kmn_globals example_three (MCallable fixed_sampler)
                100 true = ([], Ok [1; 3; 1; 2; 3; 4; 5])) by reflexivity.
  split; [exact H|].
  exact (keep_edges_layout example_permutation example_KMeans_fit
           example_AgglomerativeClustering_fit example_mean kmn_globals
           example_three (MCallable fixed_sampler) 100 []
           [1; 3; 1; 2; 3; 4; 5] Hf H).
Defined.

Lemma identity_returns_all_values_witness :
  (bound kmn_globals "warnings" = true
   \/ (100 = 100 /\ is_callable (MCallable all_sampler) = true))
  /\ example_strategy_of (MCallable all_sampler) = Ok all_sampler
  /\ example_call_in kmn_globals example_targets (MCallable all_sampler) 100
       false
     = ([], Ok [5; 1; 5; 1; 3])
  /\ (example_targets <> [] ->
      example_call_in kmn_globals example_targets (MCallable all_sampler) 100
        true
      = ([], Ok [1; 5; 1; 3; 5]))
  /\ ((2 <= List.length example_targets)%nat ->
      Permutation example_targets
        (minimum example_targets :: maximum example_targets
           :: interior example_targets))
  /\ (forall x, example_targets = [x] ->
        minimum example_targets :: maximum example_targets
          :: interior example_targets = [x; x]).
Proof.
  assert (Hrun : bound kmn_globals "warnings" = true
                 \/ (100 = 100 /\ is_callable (MCallable all_sampler) = true))
    by (right; split; reflexivity).
  assert (Hm : example_strategy_of (MCallable all_sampler) = Ok all_sampler)
    by reflexivity.
  split; [exact Hrun|]. split; [exact Hm|].
  exact (identity_returns_all_values example_permutation example_KMeans_fit
           example_AgglomerativeClustering_fit example_mean kmn_globals
           example_targets (MCallable all_sampler) 100 Hrun Hm).
Defined.

Abbreviation example_result_state :=
  (mkState [[3; 1; 2]; []; [3; 1; 2]] []).

Lemma returned_array_is_new_witness :
  valid (caller_state example_three) (caller_array example_three)
  /\ example_sample_center_points_in kmn_globals (caller_array example_three)
       (MCallable all_sampler) 100 false (caller_state example_three)
     = (Ok (mkArray 2 0 3), example_result_state)
  /\ (List.length (heap (caller_state example_three)) < 2)%nat
  /\ (forall a, valid (caller_state example_three) a -> base a <> 2%nat)
  /\ 2%nat
     = (List.length (heap (example_result_state)) - 1)%nat
  /\ 0%nat = 0%nat
  /\ 3%nat
     = List.length
         (contents (example_result_state) (mkArray 2 0 3)).
Proof.
  assert (Hv : valid (caller_state example_three) (caller_array example_three))
    by (unfold valid; simpl; lia).
  assert (Hf : forall f, MCallable all_sampler = MCallable f ->
                         allocates_only f).
  { intros f Heq. injection Heq as <-. apply all_sampler_allocates_only. }
  assert (Hrun : example_sample_center_points_in kmn_globals
                   (caller_array example_three) (MCallable all_sampler) 100 false
                   (caller_state example_three)
                 = (Ok (mkArray 2 0 3),
                    example_result_state))
    by reflexivity.
  split; [exact Hv|]. split; [exact Hrun|].
  exact (returned_array_is_new example_permutation example_KMeans_fit
           example_AgglomerativeClustering_fit example_mean kmn_globals
           (caller_array example_three) (MCallable all_sampler) 100 false
           (caller_state example_three) _ _ Hf Hv Hrun).
Defined.

(** The estimator with the example libraries: a new estimator with the
    constructor's defaults, and one that an earlier [fit] has set up. *)
Abbreviation example_new_machine :=
  (@mkMachine example_libraries default_estimator 0%nat []).

Abbreviation example_set_up :=
  (@mkEstimator example_libraries (MCallable all_sampler) 100 false (Some tt)
     [7] [] false (Some [1])).

Abbreviation example_fit :=
  (fit example_permutation example_KMeans_fit
     example_AgglomerativeClustering_fit example_mean example_libraries).

Abbreviation example_build_model :=
  (_build_model example_permutation example_KMeans_fit
     example_AgglomerativeClustering_fit example_mean example_libraries).

Lemma partial_fit_without_epochs_witness :
  0 <= 0
  /\ partial_fit example_libraries tt [3; 1; 2] 0 None example_new_machine
     = (Raised (UnboundLocalError "train_loss"),
        @mkMachine example_libraries default_estimator 0%nat [Printed "fitting model"]).
Proof.
  assert (Hn : 0 <= 0) by lia.
  split; [exact Hn|].
  exact (partial_fit_without_epochs example_libraries tt [3; 1; 2] 0 None
           example_new_machine Hn).
Defined.

Lemma partial_fit_before_fit_witness :
  self_inference (self example_new_machine) = None
  /\ 0 < 3
  /\ partial_fit example_libraries tt [3; 1; 2] 3 None example_new_machine
     = (Raised (AttributeError "'NoneType' object has no attribute 'update'"),
        @mkMachine example_libraries default_estimator 0%nat [Printed "fitting model"]).
Proof.
  assert (Hi : self_inference (self example_new_machine) = None)
    by reflexivity.
  assert (Hn : 0 < 3) by lia.
  split; [exact Hi|]. split; [exact Hn|].
  exact (partial_fit_before_fit example_libraries tt [3; 1; 2] 3 None
           example_new_machine Hi Hn).
Defined.

Abbreviation example_updated :=
  (@mkMachine example_libraries
     (@mkEstimator example_libraries (MCallable all_sampler) 100 false
        (Some tt) [7; -1; -1] [] false (Some [1]))
     3%nat
     [Printed "fitting model"; @Progress example_libraries 3; @Progress example_libraries 3;
      Printed "mean log-loss train: 1.000"; Printed "optimal scales: [1.]"]).

Lemma partial_fit_returns_witness :
  partial_fit example_libraries tt [3; 1; 2] 2 None
    (@mkMachine example_libraries example_set_up 0%nat [])
  = (Returned tt, example_updated)
  /\ 0 < 2
  /\ self_inference example_set_up <> None
  /\ exists dt dv pr summary,
       self_train_loss (self example_updated)
       = self_train_loss example_set_up ++ dt
       /\ List.length dt = Z.to_nat 2
       /\ self_test_loss (self example_updated)
          = self_test_loss example_set_up ++ dv
       /\ List.length dv = 0%nat
       /\ stdout example_updated
          = [] ++ Printed "fitting model" :: pr ++ summary
       /\ Forall is_progress pr
       /\ List.length pr = Z.to_nat 2
       /\ Forall (fun e => ~ is_progress e) summary
       /\ List.length summary = 2%nat.
Proof.
  assert (H : partial_fit example_libraries tt [3; 1; 2] 2 None
                (@mkMachine example_libraries example_set_up 0%nat [])
              = (Returned tt, example_updated)) by reflexivity.
  split; [exact H|].
  exact (partial_fit_returns example_libraries tt [3; 1; 2] 2 None _ _ H).
Defined.

Lemma partial_fit_only_appends_witness :
  partial_fit example_libraries tt [3; 1; 2] 2 None
    (@mkMachine example_libraries example_set_up 0%nat [])
  = (Returned tt, example_updated)
  /\ same_settings example_set_up (self example_updated)
  /\ exists dt dv,
       self_train_loss (self example_updated)
       = self_train_loss example_set_up ++ dt
       /\ self_test_loss (self example_updated)
          = self_test_loss example_set_up ++ dv
       /\ (List.length dv <= List.length dt <= Z.to_nat 2)%nat
       /\ (@None (unit * list scalar) = None -> dv = []).
Proof.
  assert (H : partial_fit example_libraries tt [3; 1; 2] 2 None
                (@mkMachine example_libraries example_set_up 0%nat [])
              = (Returned tt, example_updated)) by reflexivity.
  split; [exact H|].
  exact (partial_fit_only_appends example_libraries tt [3; 1; 2] 2 None _ _ _
           H).
Defined.

(** [KernelMixtureNetwork().fit(X, y, 1)] stops at the centers. *)
Lemma fit_stops_at_the_centers_witness :
  (is_callable (self_center_sampling_method (self example_new_machine)) = false
   \/ self_n_centers (self example_new_machine) <> 100)
  /\ example_build_model tt [3; 1; 2] example_new_machine
     = (Raised (SamplerException (NameError "warnings")),
        @mkMachine example_libraries default_estimator 1%nat [])
  /\ example_fit tt [3; 1; 2] 1 None example_new_machine
     = example_build_model tt [3; 1; 2] example_new_machine.
Proof.
  assert (Hdep : is_callable
                   (self_center_sampling_method (self example_new_machine))
                 = false
                 \/ self_n_centers (self example_new_machine) <> 100)
    by (left; reflexivity).
  split; [exact Hdep|].
  exact (fit_stops_at_the_centers example_permutation example_KMeans_fit
           example_AgglomerativeClustering_fit example_mean example_libraries
           tt [3; 1; 2] 1 None example_new_machine Hdep).
Defined.

Abbreviation example_direct_machine :=
  (@mkMachine example_libraries
     (new_estimator (MCallable all_sampler) 100 false) 0%nat []).

Abbreviation example_fitted :=
  (@mkMachine example_libraries
     (@mkEstimator example_libraries (MCallable all_sampler) 100 false
        (Some tt) [-1] [] true (Some [3; 1; 2]))
     6%nat
     [Printed "fitting model"; @Progress example_libraries 3;
      Printed "mean log-loss train: 1.000"; Printed "optimal scales: [1.]"]).

Lemma fit_sets_fitted_on_success_witness :
  example_fit tt [3; 1; 2] 1 None example_direct_machine
  = (Returned tt, example_fitted)
  /\ self_fitted (self example_fitted) = true
  /\ self_inference (self example_fitted) = Some tt
  /\ 0 < 1
  /\ is_callable (self_center_sampling_method (self example_direct_machine))
     = true
  /\ self_n_centers (self example_direct_machine) = 100
  /\ (exists ws locs,
        example_call [3; 1; 2]
          (self_center_sampling_method (self example_direct_machine)) 100
          (self_keep_edges (self example_direct_machine)) = (ws, Ok locs)
        /\ self_locs (self example_fitted) = Some locs)
  /\ (exists dt,
        self_train_loss (self example_fitted)
        = self_train_loss (self example_direct_machine) ++ dt
        /\ List.length dt = Z.to_nat 1).
Proof.
  assert (H : example_fit tt [3; 1; 2] 1 None example_direct_machine
              = (Returned tt, example_fitted)) by reflexivity.
  split; [exact H|].
  exact (proj1 (fit_sets_fitted_on_success example_permutation
                  example_KMeans_fit example_AgglomerativeClustering_fit
                  example_mean example_libraries tt [3; 1; 2] 1 None _ _ _ H)
           eq_refl).
Defined.

Abbreviation example_hundred := (map Z.of_nat (seq 1 100)).

Lemma random_call_returns_witness :
  (bound kmn_globals "warnings" = true \/ 100 = 100)
  /\ 2 <= 100 <= Z.of_nat (List.length example_hundred)
  /\ exists w out,
       example_call_in kmn_globals example_hundred
         (MCallable (random_sampler example_permutation)) 100 true
       = (w, Ok out)
       /\ Z.of_nat (List.length out) = 100.
Proof.
  assert (Hg : bound kmn_globals "warnings" = true \/ 100 = 100)
    by (right; reflexivity).
  assert (Hk : (if true then 2 else 0) <= 100
               <= Z.of_nat (List.length example_hundred))
    by (vm_compute; split; discriminate).
  split; [exact Hg|]. split; [exact Hk|].
  exact (random_call_returns example_permutation example_KMeans_fit
           example_AgglomerativeClustering_fit example_mean
           example_permutation_spec kmn_globals example_hundred 100 true
           Hg Hk).
Defined.

(** The fixed strategy is not registered under its name. *)
Lemma sampler_from_name_registered_witness :
  "fixed" <> "random" /\ "fixed" <> "distance" /\ "fixed" <> "k_means"
  /\ "fixed" <> "agglomerative"
  /\ sampler_from_name example_permutation example_KMeans_fit
       example_AgglomerativeClustering_fit example_mean (Some "fixed")
     = Raise (ValueError "unknown method fixed").
Proof.
  assert (H1 : "fixed" <> "random") by discriminate.
  assert (H2 : "fixed" <> "distance") by discriminate.
  assert (H3 : "fixed" <> "k_means") by discriminate.
  assert (H4 : "fixed" <> "agglomerative") by discriminate.
  split; [exact H1|]. split; [exact H2|]. split; [exact H3|].
  split; [exact H4|].
  exact (proj1 (proj2 (proj2 (proj2 (proj2 (proj2
           (sampler_from_name_registered example_permutation
              example_KMeans_fit example_AgglomerativeClustering_fit
              example_mean)))))) "fixed" H1 H2 H3 H4).
Defined.
